(** * node-servant [config control-plane]: patching the static-pod manifests

    A shallow embedding of [pkg/node-servant/config/control-plane.go]:
    the runner factory ([NewControlPlaneRunner], [newStaticPodRunner]) and
    the patch engine ([staticPodRunner.Do]), over an abstract file-system
    accessor ([fileutil]) whose calls are recorded in a trace. *)

From Stdlib Require Import String Ascii ZArith Bool.
From stdpp Require Import base list strings gmap.

Local Open Scope Z_scope.

(** ** Go's [strings] package, on byte strings *)

Module strings.

(** [strings.Index(s, substr)]: index of the first occurrence of
    [substr] in [s], or [-1]. *)
Fixpoint Index (s substr : string) : Z :=
  if String.prefix substr s then 0
  else match s with
       | EmptyString => -1
       | String _ s' =>
           let i := Index s' substr in
           if i <? 0 then -1 else i + 1
       end.

(** [strings.Contains(s, substr)] is [Index(s, substr) >= 0]. *)
Definition Contains (s substr : string) : bool := 0 <=? Index s substr.

End strings.

(** Go slice expressions [s[:n]] and [s[n:]] on strings.  Go panics when
    [n] is out of range; the one call site stays in range
    (see [insertPoint_in_range]). *)
Fixpoint slice_to (s : string) (n : nat) {struct n} : string :=
  match n, s with
  | S n', String c s' => String c (slice_to s' n')
  | _, _ => EmptyString
  end.

Fixpoint slice_from (s : string) (n : nat) {struct n} : string :=
  match n, s with
  | S n', String _ s' => slice_from s' n'
  | _, _ => s
  end.

(** ** The part of [v1.Pod] the runner reads and writes *)

Record Container := mkContainer {
  Name : string;
  Image : string;
  Command : list string;
  Args : list string
}.

Record PodSpec := mkPodSpec {
  Containers : list Container;
  DNSPolicy : string;
  HostNetwork : bool
}.

Record Pod := mkPod {
  PodName : string;
  Spec : PodSpec
}.

(** [v1.DNSClusterFirstWithHostNet] *)
Definition DNSClusterFirstWithHostNet : string := "ClusterFirstWithHostNet".

(** A decoded [runtime.Object]: a pointer to a [v1.Pod], or an object of
    another kind, for which the type assertion to a pod pointer fails. *)
Inductive Object :=
| PodObject (p : Pod)
| OtherObject (kind : string).

Definition set_Command (c : Container) (cmd : list string) : Container :=
  {| Name := Name c; Image := Image c; Command := cmd; Args := Args c |}.

Definition set_Containers (p : Pod) (cs : list Container) : Pod :=
  {| PodName := PodName p;
     Spec := {| Containers := cs;
                DNSPolicy := DNSPolicy (Spec p);
                HostNetwork := HostNetwork (Spec p) |} |}.

Definition set_DNSPolicy (p : Pod) (d : string) : Pod :=
  {| PodName := PodName p;
     Spec := {| Containers := Containers (Spec p);
                DNSPolicy := d;
                HostNetwork := HostNetwork (Spec p) |} |}.

(** ** The transformations of [staticPodRunner.Do] *)

Definition kubeletPreferredAddressTypes : string :=
  "kubelet-preferred-address-types=".
Definition controllersFlag : string := "--controllers=".
Definition nodelifecycleToken : string := "-nodelifecycle,".

(** Lines 87-94, one container of the kube-apiserver pod: scan the command
    from index 0; at the first argument containing
    [kubelet-preferred-address-types=], drop it
    ([append(Command[:j], Command[j+1:]...)]), set the flag and [break]. *)
Fixpoint removeAddressTypes (cmd : list string) (updated : bool)
  : list string * bool :=
  match cmd with
  | [] => ([], updated)
  | arg :: rest =>
      if strings.Contains arg kubeletPreferredAddressTypes
      then (rest, true)
      else let '(rest', u) := removeAddressTypes rest updated in
           (arg :: rest', u)
  end.

(** Lines 86-95: the loop over the containers, threading [kasPodUpdated]. *)
Fixpoint removeAddressTypesAll (cs : list Container) (updated : bool)
  : list Container * bool :=
  match cs with
  | [] => ([], updated)
  | c :: cs' =>
      let '(cmd, u) := removeAddressTypes (Command c) updated in
      let '(cs'', u') := removeAddressTypesAll cs' u in
      (set_Command c cmd :: cs'', u')
  end.

(** Lines 99-102: normalise the DNS policy. *)
Definition setDNSPolicy (p : Pod) (updated : bool) : Pod * bool :=
  if negb (String.eqb (DNSPolicy (Spec p)) DNSClusterFirstWithHostNet)
  then (set_DNSPolicy p DNSClusterFirstWithHostNet, true)
  else (p, updated).

(** Lines 72 and 84-102: what [Do] does to the kube-apiserver pod;
    [kasPodUpdated] starts as [false]. *)
Definition patchKAS (p : Pod) : Pod * bool :=
  let '(cs, u) := removeAddressTypesAll (Containers (Spec p)) false in
  setDNSPolicy (set_Containers p cs) u.

(** Lines 120-121: insert [-nodelifecycle,] after the first [=]. *)
Definition insertNodelifecycle (arg : string) : string :=
  let insertPoint := strings.Index arg "=" + 1 in
  slice_to arg (Z.to_nat insertPoint) +:+ nodelifecycleToken
    +:+ slice_from arg (Z.to_nat insertPoint).

(** Lines 116-126, one container of the kube-controller-manager pod: the
    [break] is inside the inner [if], so an argument that already holds
    the token does not end the scan. *)
Fixpoint disableNodeLifecycle (cmd : list string) (updated : bool)
  : list string * bool :=
  match cmd with
  | [] => ([], updated)
  | arg :: rest =>
      if strings.Contains arg controllersFlag then
        if negb (strings.Contains arg nodelifecycleToken)
        then (insertNodelifecycle arg :: rest, true)
        else let '(rest', u) := disableNodeLifecycle rest updated in
             (arg :: rest', u)
      else let '(rest', u) := disableNodeLifecycle rest updated in
           (arg :: rest', u)
  end.

(** Lines 115-127: the loop over the containers, threading
    [kcmPodUpdated]. *)
Fixpoint disableNodeLifecycleAll (cs : list Container) (updated : bool)
  : list Container * bool :=
  match cs with
  | [] => ([], updated)
  | c :: cs' =>
      let '(cmd, u) := disableNodeLifecycle (Command c) updated in
      let '(cs'', u') := disableNodeLifecycleAll cs' u in
      (set_Command c cmd :: cs'', u')
  end.

(** Lines 73 and 114-127: what [Do] does to the kube-controller-manager
    pod; [kcmPodUpdated] starts as [false]. *)
Definition patchKCM (p : Pod) : Pod * bool :=
  let '(cs, u) := disableNodeLifecycleAll (Containers (Spec p)) false in
  (set_Containers p cs, u).

(** The number of arguments of a command that contain [flag]. *)
Definition matching (flag : string) (cmd : list string) : nat :=
  length (List.filter (fun arg => strings.Contains arg flag) cmd).

(** The data-model invariant for one flag: every container of the pod has
    at most one argument containing it. *)
Definition atMostOne (flag : string) (p : Pod) : Prop :=
  Forall (fun c => (matching flag (Command c) <= 1)%nat) (Containers (Spec p)).

(** An argument the controller-manager loop rewrites: it contains
    [--controllers=] but not [-nodelifecycle,]. *)
Definition patchable (arg : string) : bool :=
  strings.Contains arg controllersFlag
  && negb (strings.Contains arg nodelifecycleToken).

(** What the two loops do to one container. *)
Definition kasContainerPatch (c : Container) : Container :=
  set_Command c (fst (removeAddressTypes (Command c) false)).

Definition kcmContainerPatch (c : Container) : Container :=
  set_Command c (fst (disableNodeLifecycle (Command c) false)).

(** The argument of the spec's controller-insertion scenario. *)
Definition controllersArg : string :=
  "--controllers=*,bootstrapsigner,tokencleaner".
Definition controllersArgPatched : string :=
  "--controllers=-nodelifecycle,*,bootstrapsigner,tokencleaner".

(** ** Errors, results and the file-system accessor *)

(** A Go [error] value, by its message. *)
Definition error : Type := string.

(** A Go result pair [(T, error)] with exactly one side set. *)
Inductive result (A : Type) : Type :=
| Ok (a : A)
| Err (e : error).
Arguments Ok {A} a.
Arguments Err {A} e.

(** Modelled from the spec: package [fileutil] ([pkg/util/file]) lies
    outside [control-plane.go]; its three functions are taken as an
    interface over a type [W] of file-system states, with the Go
    signatures seen at the call sites.  [FileExists] returns the pair
    [(bool, error)]; loading does not change the file system; saving
    returns the new file system and the error, if any. *)
Class FileUtil (W : Type) := {
  FileExists : string -> W -> bool * option error;
  ReadObjectFromYamlFile : string -> W -> result Object;
  WriteObjectToYamlFile : Object -> string -> W -> option error * W
}.

(** Modelled from the spec: [SavePod] serializes the object back to YAML at
    [path], overwriting it, and [LoadPod] parses the document at [path];
    so a load after a successful save returns the saved object, and a save
    to one path leaves every other path as it was. *)
Class FileUtilLaws (W : Type) `{FileUtil W} : Prop := {
  read_after_write : forall obj p w w',
    WriteObjectToYamlFile obj p w = (None, w') ->
    ReadObjectFromYamlFile p w' = Ok obj;
  read_write_other : forall obj p q w e w',
    WriteObjectToYamlFile obj p w = (e, w') ->
    q <> p ->
    ReadObjectFromYamlFile q w' = ReadObjectFromYamlFile q w
}.

(** Go's [filepath.Join], taken as given. *)
Class Filepath := { filepath_Join : string -> string -> string }.

(** The accessor calls a run makes, in order. *)
Inductive Event :=
| EvFileExists (path : string)
| EvRead (path : string)
| EvWrite (obj : Object) (path : string).

Definition is_write_to (path : string) (ev : Event) : bool :=
  match ev with
  | EvWrite _ p => String.eqb p path
  | _ => false
  end.

(** [ControlPlaneOptions], by the two fields the factory reads. *)
Record ControlPlaneOptions := mkOptions {
  RunMode : string;
  PodManifestsPath : string
}.

Record staticPodRunner := mkRunner {
  kasStaticPodPath : string;
  kcmStaticPodPath : string
}.

Record State (W : Type) := mkState {
  world : W;
  trace : list Event
}.
Arguments mkState {W} world trace.
Arguments world {W} s.
Arguments trace {W} s.

(** ** A state-and-error monad for the runner *)

Definition M (W A : Type) : Type := State W -> result A * State W.

Definition ret {W A} (a : A) : M W A := fun s => (Ok a, s).

Definition fail {W A} (e : error) : M W A := fun s => (Err e, s).

Definition bind {W A B} (m : M W A) (k : A -> M W B) : M W B :=
  fun s =>
    match m s with
    | (Ok a, s') => k a s'
    | (Err e, s') => (Err e, s')
    end.

Declare Scope runner_scope.
Delimit Scope runner_scope with runner.
Notation "'do' x <- m ; k" := (bind m (fun x => k))
  (at level 10, x name, m at level 100, k at level 200) : runner_scope.
Notation "'do' ' pat <- m ; k" := (bind m (fun x => match x with pat => k end))
  (at level 10, pat pattern, m at level 100, k at level 200) : runner_scope.
Notation "m ;; k" := (bind m (fun _ => k))
  (at level 100, k at level 200, right associativity) : runner_scope.

Section Runner.
Context {W : Type} `{FileUtil W} `{Filepath}.

Local Open Scope runner_scope.

Definition log (ev : Event) (s : State W) : State W :=
  {| world := world s; trace := trace s ++ [ev] |}.

(** The three accessor calls, each recorded in the trace. *)
Definition fileExists (path : string) : M W (bool * option error) :=
  fun s => (Ok (FileExists path (world s)), log (EvFileExists path) s).

Definition readObject (path : string) : M W Object :=
  fun s => (ReadObjectFromYamlFile path (world s), log (EvRead path) s).

Definition writeObject (obj : Object) (path : string) : M W unit :=
  fun s =>
    let '(err, w') := WriteObjectToYamlFile obj path (world s) in
    (match err with None => Ok tt | Some e => Err e end,
     {| world := w'; trace := trace s ++ [EvWrite obj path] |}).

(** Lines 54-69. *)
Definition newStaticPodRunner (podManifestsPath : string)
  : M W staticPodRunner :=
  let kasPath := filepath_Join podManifestsPath "kube-apiserver.yaml" in
  let kcmPath :=
    filepath_Join podManifestsPath "kube-controller-manager.yaml" in
  do '(exist_, _) <- fileExists kasPath;
  if negb exist_ then fail (kasPath +:+ " file is not exist") else
  do '(exist_, _) <- fileExists kcmPath;
  if negb exist_ then fail (kcmPath +:+ " file is not exist") else
  ret {| kasStaticPodPath := kasPath; kcmStaticPodPath := kcmPath |}.

(** Lines 40-47. *)
Definition NewControlPlaneRunner (o : ControlPlaneOptions)
  : M W staticPodRunner :=
  if String.eqb (RunMode o) "pod"
  then newStaticPodRunner (PodManifestsPath o)
  else fail (RunMode o
             +:+ " mode is not supported, only static pod mode is implemented").

Definition notStaticPod (path : string) : error :=
  "manifest file(" +:+ path +:+ ") is not a static pod".

(** Lines 129-142: the write-back step. *)
Definition writeBack (spr : staticPodRunner)
    (kasPod : Pod) (kasPodUpdated : bool)
    (kcmPod : Pod) (kcmPodUpdated : bool) : M W unit :=
  (if kasPodUpdated
   then writeObject (PodObject kasPod) (kasStaticPodPath spr)
   else ret tt) ;;
  (if kcmPodUpdated
   then writeObject (PodObject kcmPod) (kcmStaticPodPath spr)
   else ret tt) ;;
  ret tt.

(** Lines 71-143. *)
Definition Do (spr : staticPodRunner) : M W unit :=
  do kasObj <- readObject (kasStaticPodPath spr);
  match kasObj with
  | OtherObject _ => fail (notStaticPod (kasStaticPodPath spr))
  | PodObject kasPod =>
      let '(kasPod, kasPodUpdated) := patchKAS kasPod in
      do kcmObj <- readObject (kcmStaticPodPath spr);
      match kcmObj with
      | OtherObject _ => fail (notStaticPod (kcmStaticPodPath spr))
      | PodObject kcmPod =>
          let '(kcmPod, kcmPodUpdated) := patchKCM kcmPod in
          writeBack spr kasPod kasPodUpdated kcmPod kcmPodUpdated
      end
  end.

End Runner.

(** ** An in-memory file system, to run the model *)

Record MemFS := mkMemFS {
  files : gmap string Object;
  readOnly : gset string;
  statDenied : gset string
}.

Definition memFileExists (path : string) (w : MemFS) : bool * option error :=
  if bool_decide (path ∈ statDenied w)
  then (false, Some ("stat " +:+ path +:+ ": permission denied"))
  else match files w !! path with
       | Some _ => (true, None)
       | None => (false, None)
       end.

Definition memRead (path : string) (w : MemFS) : result Object :=
  match files w !! path with
  | Some obj => Ok obj
  | None => Err ("open " +:+ path +:+ ": no such file or directory")
  end.

Definition memWrite (obj : Object) (path : string) (w : MemFS)
  : option error * MemFS :=
  if bool_decide (path ∈ readOnly w)
  then (Some ("open " +:+ path +:+ ": permission denied"), w)
  else (None, {| files := <[path := obj]> (files w);
                 readOnly := readOnly w;
                 statDenied := statDenied w |}).

#[export] Instance MemFS_FileUtil : FileUtil MemFS := {
  FileExists := memFileExists;
  ReadObjectFromYamlFile := memRead;
  WriteObjectToYamlFile := memWrite
}.

(** [filepath.Join] on a clean directory name without a trailing
    separator. *)
#[export] Instance simpleJoin : Filepath := {
  filepath_Join dir name := dir +:+ "/" +:+ name
}.

Definition run {W A} (m : M W A) (w : W) : result A * State W :=
  m {| world := w; trace := [] |}.

(** Sample manifests. *)
Definition kasContainer : Container :=
  {| Name := "kube-apiserver";
     Image := "registry.k8s.io/kube-apiserver:v1.22.0";
     Command := ["kube-apiserver";
                 "--kubelet-preferred-address-types=Hostname,InternalIP";
                 "--secure-port=6443"];
     Args := [] |}.

Definition kasPod0 : Pod :=
  {| PodName := "kube-apiserver";
     Spec := {| Containers := [kasContainer];
                DNSPolicy := "Default";
                HostNetwork := true |} |}.

Definition kcmContainer : Container :=
  {| Name := "kube-controller-manager";
     Image := "registry.k8s.io/kube-controller-manager:v1.22.0";
     Command := ["kube-controller-manager";
                 "--controllers=*,bootstrapsigner,tokencleaner"];
     Args := [] |}.

Definition kcmPod0 : Pod :=
  {| PodName := "kube-controller-manager";
     Spec := {| Containers := [kcmContainer];
                DNSPolicy := "ClusterFirst";
                HostNetwork := true |} |}.

Definition manifests : string := "/etc/kubernetes/manifests".
Definition kasPath0 : string := "/etc/kubernetes/manifests/kube-apiserver.yaml".
Definition kcmPath0 : string :=
  "/etc/kubernetes/manifests/kube-controller-manager.yaml".

Definition fs0 : MemFS :=
  {| files := <[kasPath0 := PodObject kasPod0]>
                (<[kcmPath0 := PodObject kcmPod0]> ∅);
     readOnly := ∅;
     statDenied := ∅ |}.

Definition spr0 : staticPodRunner :=
  {| kasStaticPodPath := kasPath0; kcmStaticPodPath := kcmPath0 |}.

(** Variants of the sample file system. *)
Definition withFiles (fs : gmap string Object) : MemFS :=
  {| files := fs; readOnly := ∅; statDenied := ∅ |}.

Definition fsReadOnlyKAS : MemFS :=
  {| files := files fs0; readOnly := {[kasPath0]}; statDenied := ∅ |}.

Definition fsStatDenied : MemFS :=
  {| files := files fs0; readOnly := ∅; statDenied := {[kasPath0]} |}.

Definition fsKasPatched : MemFS :=
  withFiles (<[kasPath0 := PodObject (fst (patchKAS kasPod0))]>
               (<[kcmPath0 := PodObject kcmPod0]> ∅)).

Definition fsKcmPatched : MemFS :=
  withFiles (<[kasPath0 := PodObject kasPod0]>
               (<[kcmPath0 := PodObject (fst (patchKCM kcmPod0))]> ∅)).

Definition fsConfigMap : MemFS :=
  withFiles (<[kasPath0 := OtherObject "ConfigMap"]>
               (<[kcmPath0 := PodObject kcmPod0]> ∅)).

Definition fsNoKCM : MemFS :=
  withFiles (<[kasPath0 := PodObject kasPod0]> ∅).

(** A controller-manager pod with two [--controllers=] arguments. *)
Definition kcmPodTwoFlags : Pod :=
  {| PodName := "kube-controller-manager";
     Spec := {| Containers :=
                  [set_Command kcmContainer
                     ["kube-controller-manager"; "--controllers=foo";
                      controllersArg]];
                DNSPolicy := "ClusterFirst";
                HostNetwork := true |} |}.

(** ** Counting, repeated runs and trace predicates *)

(** The number of arguments of a command the controller-manager scan would
    rewrite. *)
Definition patchableCount (cmd : list string) : nat :=
  length (List.filter patchable cmd).

(** [n] runs of each patch in a row. *)
Definition applyKAS (n : nat) (p : Pod) : Pod :=
  Nat.iter n (fun q => fst (patchKAS q)) p.

Definition applyKCM (n : nat) (p : Pod) : Pod :=
  Nat.iter n (fun q => fst (patchKCM q)) p.

Definition is_probe (ev : Event) : bool :=
  match ev with EvFileExists _ => true | _ => false end.

Definition is_write (ev : Event) : bool :=
  match ev with EvWrite _ _ => true | _ => false end.

(** The calls [Do] may make: loads of its two paths and saves of pods to
    its two paths. *)
Definition doEvent (spr : staticPodRunner) (ev : Event) : bool :=
  match ev with
  | EvRead p | EvWrite (PodObject _) p =>
      String.eqb p (kasStaticPodPath spr) || String.eqb p (kcmStaticPodPath spr)
  | _ => false
  end.

(** More sample data: a kube-apiserver pod with the flag given twice, and
    further variants of the sample file system. *)
Definition kasPodTwoFlags : Pod :=
  {| PodName := "kube-apiserver";
     Spec := {| Containers :=
                  [set_Command kasContainer
                     ["kube-apiserver";
                      "--kubelet-preferred-address-types=Hostname";
                      "--secure-port=6443";
                      "--kubelet-preferred-address-types=InternalIP"]];
                DNSPolicy := "Default";
                HostNetwork := true |} |}.

Definition fsNoKAS : MemFS :=
  withFiles (<[kcmPath0 := PodObject kcmPod0]> ∅).

Definition fsKcmConfigMap : MemFS :=
  withFiles (<[kasPath0 := PodObject kasPod0]>
               (<[kcmPath0 := OtherObject "ConfigMap"]> ∅)).

Definition fsBothPatched : MemFS :=
  withFiles (<[kasPath0 := PodObject (fst (patchKAS kasPod0))]>
               (<[kcmPath0 := PodObject (fst (patchKCM kcmPod0))]> ∅)).

Definition fsReadOnlyKCM : MemFS :=
  {| files := files fs0; readOnly := {[kcmPath0]}; statDenied := ∅ |}.

(** A pod with three containers, each holding both flags: the first two
    are rewritten by either patch before the third is reached. *)
Definition firstContainer : Container :=
  {| Name := "main"; Image := "registry.k8s.io/main:v1";
     Command := ["main"; "--kubelet-preferred-address-types=Hostname";
                 "--controllers=*"];
     Args := [] |}.

Definition secondContainer : Container :=
  {| Name := "sidecar"; Image := "registry.k8s.io/sidecar:v1";
     Command := ["sidecar"; "--controllers=foo";
                 "--kubelet-preferred-address-types=ExternalIP"];
     Args := ["--log"] |}.

Definition thirdContainer : Container :=
  {| Name := "proxy"; Image := "registry.k8s.io/proxy:v1";
     Command := ["proxy"; "--kubelet-preferred-address-types=InternalIP";
                 "--controllers=bar"; "--v=2"];
     Args := [] |}.

Definition threeContainerPod : Pod :=
  {| PodName := "control-plane";
     Spec := {| Containers := [firstContainer; secondContainer; thirdContainer];
                DNSPolicy := "ClusterFirst";
                HostNetwork := true |} |}.

(** * Properties *)

Example removeAddressTypes_ex :
  removeAddressTypes
    ["kube-apiserver"; "--kubelet-preferred-address-types=Hostname,InternalIP";
     "--secure-port=6443"] false
  = (["kube-apiserver"; "--secure-port=6443"], true).
Proof. reflexivity. Qed.

Example disableNodeLifecycle_ex :
  disableNodeLifecycle
    ["kube-controller-manager"; "--controllers=*,bootstrapsigner,tokencleaner"]
    false
  = (["kube-controller-manager";
      "--controllers=-nodelifecycle,*,bootstrapsigner,tokencleaner"], true).
Proof. reflexivity. Qed.


(** ** Facts about [strings.Index] and [strings.Contains] *)

Lemma Index_lower (s sub : string) : -1 <= strings.Index s sub.
Proof.
  induction s as [|c s IH]; cbn [strings.Index];
    destruct (String.prefix sub _); try lia.
  destruct (Z.ltb_spec (strings.Index s sub) 0); lia.
Qed.

Lemma Contains_cons (c : ascii) (s sub : string) :
  strings.Contains (String c s) sub
  = String.prefix sub (String c s) || strings.Contains s sub.
Proof.
  unfold strings.Contains. cbn [strings.Index].
  destruct (String.prefix sub (String c s)); [reflexivity|]. cbn [orb].
  destruct (Z.ltb_spec (strings.Index s sub) 0);
    repeat match goal with
           | |- context [?a <=? ?b] => destruct (Z.leb_spec a b)
           end; try reflexivity; lia.
Qed.

Lemma append_String (c : ascii) (s t : string) :
  String c s +:+ t = String c (s +:+ t).
Proof. reflexivity. Qed.

Lemma append_Empty (t : string) : "" +:+ t = t.
Proof. reflexivity. Qed.

Lemma append_assoc (s t u : string) :
  (s +:+ t) +:+ u = s +:+ t +:+ u.
Proof.
  induction s as [|c s IH]; [reflexivity|].
  now rewrite !append_String, IH.
Qed.

Lemma length_append (s t : string) :
  String.length (s +:+ t) = (String.length s + String.length t)%nat.
Proof.
  induction s as [|c s IH]; [reflexivity|].
  rewrite append_String. simpl. now rewrite IH.
Qed.

Lemma prefix_app (sub rest : string) : String.prefix sub (sub +:+ rest) = true.
Proof.
  induction sub as [|c sub IH]; [now destruct rest|].
  rewrite append_String. simpl.
  destruct (ascii_dec c c); [assumption|congruence].
Qed.

Lemma Contains_prefix (s sub : string) :
  String.prefix sub s = true -> strings.Contains s sub = true.
Proof.
  intros Hp. unfold strings.Contains.
  destruct s; cbn [strings.Index]; rewrite Hp; reflexivity.
Qed.

Lemma Contains_app_r (pre s sub : string) :
  strings.Contains s sub = true -> strings.Contains (pre +:+ s) sub = true.
Proof.
  intros Hs. induction pre as [|c pre IH]; [assumption|].
  rewrite append_String, Contains_cons, IH. apply orb_true_r.
Qed.

Lemma Contains_inserted (pre post sub : string) :
  strings.Contains (pre +:+ sub +:+ post) sub = true.
Proof. apply Contains_app_r, Contains_prefix, prefix_app. Qed.

Lemma slice_to_from (s : string) (n : nat) :
  slice_to s n +:+ slice_from s n = s.
Proof.
  revert s; induction n as [|n IH]; intros [|c s]; simpl; try reflexivity.
  now rewrite append_String, IH.
Qed.

Lemma slice_to_app (pre post : string) :
  slice_to (pre +:+ post) (String.length pre) = pre.
Proof.
  induction pre as [|c pre IH]; [rewrite append_Empty; now destruct post|].
  rewrite append_String. simpl. now rewrite IH.
Qed.

Lemma slice_from_app (pre post : string) :
  slice_from (pre +:+ post) (String.length pre) = post.
Proof.
  induction pre as [|c pre IH]; [rewrite append_Empty; reflexivity|].
  rewrite append_String. simpl. assumption.
Qed.

Lemma prefix_one (a c : ascii) (s t : string) :
  String.prefix (String a "") (String c s)
  = String.prefix (String a "") (String c t).
Proof.
  cbn [String.prefix]. destruct (ascii_dec a c); [now destruct s, t|reflexivity].
Qed.

(** The index of the first [=]. *)
Lemma Index_first_eq (pre post : string) :
  strings.Contains pre "=" = false ->
  strings.Index (pre +:+ "=" +:+ post) "=" = Z.of_nat (String.length pre).
Proof.
  induction pre as [|c pre IH]; intros Hno.
  - rewrite append_Empty, append_String. cbn [strings.Index].
    now destruct post.
  - rewrite Contains_cons in Hno. apply orb_false_elim in Hno as [Hp Hc].
    specialize (IH Hc).
    rewrite append_String. cbn [strings.Index].
    assert (Hp' : String.prefix "=" (String c (pre +:+ "=" +:+ post)) = false).
    { now rewrite (prefix_one _ _ _ pre). }
    rewrite Hp'. cbv zeta. rewrite IH.
    destruct (Z.ltb_spec (Z.of_nat (String.length pre)) 0); [lia|].
    simpl String.length. lia.
Qed.

(** Lines 120-121 on an argument split at its first [=]: the token goes
    right after that [=]. *)
Lemma insertNodelifecycle_first_eq (pre post : string) :
  strings.Contains pre "=" = false ->
  insertNodelifecycle (pre +:+ "=" +:+ post)
  = pre +:+ "=" +:+ nodelifecycleToken +:+ post.
Proof.
  intros Hno. unfold insertNodelifecycle.
  rewrite (Index_first_eq pre post Hno).
  replace (Z.to_nat (Z.of_nat (String.length pre) + 1))
    with (String.length (pre +:+ "=")).
  2:{ rewrite length_append. simpl. lia. }
  rewrite <- (append_assoc pre "=" post).
  rewrite slice_to_app, slice_from_app.
  now rewrite append_assoc.
Qed.

Lemma Contains_insertNodelifecycle (arg : string) :
  strings.Contains (insertNodelifecycle arg) nodelifecycleToken = true.
Proof. unfold insertNodelifecycle. apply Contains_inserted. Qed.

Lemma prefix_length (sub s : string) :
  String.prefix sub s = true -> (String.length sub <= String.length s)%nat.
Proof.
  revert s; induction sub as [|c sub IH]; intros [|d s]; cbn; try lia;
    try discriminate.
  destruct (ascii_dec c d); [|discriminate]. intros Hp. specialize (IH _ Hp). lia.
Qed.

(** A found occurrence lies inside the string. *)
Lemma Index_upper (s sub : string) :
  0 <= strings.Index s sub ->
  strings.Index s sub + Z.of_nat (String.length sub)
  <= Z.of_nat (String.length s).
Proof.
  induction s as [|c s IH]; cbn [strings.Index];
    destruct (String.prefix sub _) eqn:Hp.
  - apply prefix_length in Hp. lia.
  - lia.
  - apply prefix_length in Hp. lia.
  - destruct (Z.ltb_spec (strings.Index s sub) 0); [lia|].
    intros _. specialize (IH ltac:(lia)). cbn [String.length]. lia.
Qed.

Lemma prefix_Contains_suffix (p sub s : string) :
  String.prefix (p +:+ sub) s = true -> strings.Contains s sub = true.
Proof.
  revert s; induction p as [|c p IH]; intros s.
  - rewrite append_Empty. apply Contains_prefix.
  - rewrite append_String. destruct s as [|d s]; [discriminate|].
    cbn [String.prefix]. destruct (ascii_dec c d); [|discriminate].
    intros Hp. rewrite Contains_cons, (IH _ Hp). apply orb_true_r.
Qed.

Lemma Contains_suffix (s p sub : string) :
  strings.Contains s (p +:+ sub) = true -> strings.Contains s sub = true.
Proof.
  induction s as [|c s IH].
  - unfold strings.Contains at 1. cbn [strings.Index].
    destruct (String.prefix (p +:+ sub) "") eqn:Hp; [|discriminate].
    intros _. now apply prefix_Contains_suffix with p.
  - rewrite !Contains_cons. intros [Hp|Hc]%orb_true_iff.
    + rewrite <- Contains_cons. now apply prefix_Contains_suffix with p.
    + rewrite (IH Hc). apply orb_true_r.
Qed.

(** Lines 120-121 do not panic: in an argument that contains
    [--controllers=] the insert point is a valid slice bound. *)
Lemma insertPoint_in_range (arg : string) :
  strings.Contains arg controllersFlag = true ->
  1 <= strings.Index arg "=" + 1 <= Z.of_nat (String.length arg).
Proof.
  intros Hc. apply (Contains_suffix arg "--controllers" "=") in Hc.
  unfold strings.Contains in Hc. apply Z.leb_le in Hc.
  pose proof (Index_upper arg "=" Hc) as Hu. cbn [String.length] in Hu. lia.
Qed.

(** ** The per-container scans *)

Lemma set_Command_same (c : Container) : set_Command c (Command c) = c.
Proof. now destruct c. Qed.

Lemma matching_cons (flag arg : string) (cmd : list string) :
  matching flag (arg :: cmd)
  = ((if strings.Contains arg flag then 1 else 0) + matching flag cmd)%nat.
Proof. unfold matching. simpl. now destruct (strings.Contains arg flag). Qed.

Lemma matching_app (flag : string) (l1 l2 : list string) :
  matching flag (l1 ++ l2) = (matching flag l1 + matching flag l2)%nat.
Proof.
  induction l1 as [|a l1 IH]; [reflexivity|].
  rewrite <- app_comm_cons, !matching_cons, IH. lia.
Qed.

Lemma matching_0_Forall (flag : string) (cmd : list string) :
  matching flag cmd = 0%nat
  <-> Forall (fun arg => strings.Contains arg flag = false) cmd.
Proof.
  induction cmd as [|a cmd IH]; [split; [constructor|reflexivity]|].
  rewrite matching_cons, Forall_cons.
  destruct (strings.Contains a flag); split.
  - discriminate.
  - intros [? _]; discriminate.
  - intros Hm. split; [reflexivity|]. now apply IH.
  - intros [_ Hf]. now apply IH.
Qed.

(** The kube-apiserver scan, exactly: it removes the first matching
    argument, if any. *)
Lemma removeAddressTypes_none (cmd : list string) (u : bool) :
  matching kubeletPreferredAddressTypes cmd = 0%nat ->
  removeAddressTypes cmd u = (cmd, u).
Proof.
  induction cmd as [|a cmd IH]; [reflexivity|].
  rewrite matching_cons. cbn [removeAddressTypes].
  destruct (strings.Contains a _); [discriminate|].
  intros Hm. now rewrite IH.
Qed.

Lemma removeAddressTypes_first (pre post : list string) (a : string) (u : bool) :
  matching kubeletPreferredAddressTypes pre = 0%nat ->
  strings.Contains a kubeletPreferredAddressTypes = true ->
  removeAddressTypes (pre ++ a :: post) u = (pre ++ post, true).
Proof.
  intros Hpre Ha. induction pre as [|b pre IH]; cbn [removeAddressTypes app].
  - now rewrite Ha.
  - rewrite matching_cons in Hpre.
    destruct (strings.Contains b _); [discriminate|].
    now rewrite IH.
Qed.

Lemma matching_split (flag : string) (cmd : list string) :
  (0 < matching flag cmd)%nat ->
  exists pre a post,
    cmd = pre ++ a :: post /\ matching flag pre = 0%nat
    /\ strings.Contains a flag = true.
Proof.
  induction cmd as [|b cmd IH]; [cbn; lia|].
  rewrite matching_cons.
  destruct (strings.Contains b flag) eqn:Hb.
  - intros _. now exists [], b, cmd.
  - intros Hm. destruct (IH Hm) as (pre & a & post & -> & Hpre & Ha).
    exists (b :: pre), a, post. rewrite matching_cons, Hb. auto.
Qed.

Lemma removeAddressTypes_flag (cmd : list string) (u : bool) :
  snd (removeAddressTypes cmd u)
  = u || negb (Nat.eqb (matching kubeletPreferredAddressTypes cmd) 0).
Proof.
  induction cmd as [|a cmd IH]; cbn [removeAddressTypes].
  - cbn. now rewrite orb_false_r.
  - rewrite matching_cons.
    destruct (strings.Contains a _); [cbn; now rewrite orb_true_r|].
    destruct (removeAddressTypes cmd u) as [r v]. exact IH.
Qed.

Lemma removeAddressTypes_settles (cmd : list string) (u : bool) :
  (matching kubeletPreferredAddressTypes cmd <= 1)%nat ->
  matching kubeletPreferredAddressTypes (fst (removeAddressTypes cmd u)) = 0%nat.
Proof.
  induction cmd as [|a cmd IH]; [reflexivity|].
  rewrite matching_cons. cbn [removeAddressTypes].
  destruct (strings.Contains a _) eqn:Ha.
  - cbn [fst]. lia.
  - intros Hm. specialize (IH Hm).
    destruct (removeAddressTypes cmd u) as [r v]. cbn [fst] in *.
    now rewrite matching_cons, Ha.
Qed.

(** The kube-controller-manager scan, exactly: it rewrites the first
    patchable argument, if any. *)
Lemma disableNodeLifecycle_step (a : string) (rest : list string) (u : bool) :
  disableNodeLifecycle (a :: rest) u
  = if patchable a then (insertNodelifecycle a :: rest, true)
    else (a :: fst (disableNodeLifecycle rest u),
          snd (disableNodeLifecycle rest u)).
Proof.
  unfold patchable. cbn [disableNodeLifecycle].
  destruct (strings.Contains a controllersFlag),
    (strings.Contains a nodelifecycleToken),
    (disableNodeLifecycle rest u); reflexivity.
Qed.

Lemma disableNodeLifecycle_none (cmd : list string) (u : bool) :
  Forall (fun a => patchable a = false) cmd ->
  disableNodeLifecycle cmd u = (cmd, u).
Proof.
  induction 1 as [|a cmd Ha _ IH]; [reflexivity|].
  now rewrite disableNodeLifecycle_step, Ha, IH.
Qed.

Lemma disableNodeLifecycle_first (pre post : list string) (a : string) (u : bool) :
  Forall (fun b => patchable b = false) pre ->
  patchable a = true ->
  disableNodeLifecycle (pre ++ a :: post) u
  = (pre ++ insertNodelifecycle a :: post, true).
Proof.
  intros Hpre Ha. induction Hpre as [|b pre Hb _ IH]; cbn [app];
    rewrite disableNodeLifecycle_step.
  - now rewrite Ha.
  - now rewrite Hb, IH.
Qed.

Lemma patchable_insertNodelifecycle (a : string) :
  patchable (insertNodelifecycle a) = false.
Proof.
  unfold patchable. rewrite Contains_insertNodelifecycle.
  apply andb_false_r.
Qed.

Lemma not_patchable_no_flag (a : string) :
  strings.Contains a controllersFlag = false -> patchable a = false.
Proof. unfold patchable. now intros ->. Qed.

Lemma disableNodeLifecycle_settles (cmd : list string) (u : bool) :
  (matching controllersFlag cmd <= 1)%nat ->
  Forall (fun a => patchable a = false) (fst (disableNodeLifecycle cmd u)).
Proof.
  induction cmd as [|a cmd IH]; [constructor|].
  rewrite matching_cons, disableNodeLifecycle_step. intros Hm.
  destruct (patchable a) eqn:Hp; cbn [fst].
  - assert (Ha : strings.Contains a controllersFlag = true).
    { unfold patchable in Hp. now apply andb_true_iff in Hp. }
    rewrite Ha in Hm. constructor; [apply patchable_insertNodelifecycle|].
    assert (H0 : matching controllersFlag cmd = 0%nat) by lia.
    apply matching_0_Forall in H0.
    eapply Forall_impl; [exact H0|]. intros b. apply not_patchable_no_flag.
  - constructor; [assumption|]. apply IH.
    destruct (strings.Contains a controllersFlag); lia.
Qed.

Lemma disableNodeLifecycle_flag (cmd : list string) (u : bool) :
  snd (disableNodeLifecycle cmd u) = u || existsb patchable cmd.
Proof.
  induction cmd as [|a cmd IH]; [cbn; now rewrite orb_false_r|].
  rewrite disableNodeLifecycle_step. cbn [existsb].
  destruct (patchable a); cbn [snd]; [now rewrite orb_true_r|exact IH].
Qed.

(** ** The loops over the containers *)

Lemma removeAddressTypes_fst (cmd : list string) (u : bool) :
  fst (removeAddressTypes cmd u) = fst (removeAddressTypes cmd false).
Proof.
  induction cmd as [|a cmd IH]; [reflexivity|]. cbn [removeAddressTypes].
  destruct (strings.Contains a _); [reflexivity|].
  destruct (removeAddressTypes cmd u), (removeAddressTypes cmd false).
  cbn [fst] in *. now rewrite IH.
Qed.

Lemma disableNodeLifecycle_fst (cmd : list string) (u : bool) :
  fst (disableNodeLifecycle cmd u) = fst (disableNodeLifecycle cmd false).
Proof.
  induction cmd as [|a cmd IH]; [reflexivity|].
  rewrite !disableNodeLifecycle_step.
  destruct (patchable a); [reflexivity|]. cbn [fst]. now rewrite IH.
Qed.

Lemma removeAddressTypesAll_eq (cs : list Container) (u : bool) :
  removeAddressTypesAll cs u
  = (map kasContainerPatch cs,
     u || existsb (fun c => negb (Nat.eqb
            (matching kubeletPreferredAddressTypes (Command c)) 0)) cs).
Proof.
  revert u; induction cs as [|c cs IH]; intros u.
  - cbn. now rewrite orb_false_r.
  - cbn [removeAddressTypesAll map existsb].
    pose proof (removeAddressTypes_flag (Command c) u) as Hf.
    pose proof (removeAddressTypes_fst (Command c) u) as Hc.
    destruct (removeAddressTypes (Command c) u) as [cmd v].
    cbn [fst snd] in Hf, Hc. rewrite IH. subst cmd v.
    unfold kasContainerPatch. now rewrite orb_assoc.
Qed.

Lemma disableNodeLifecycleAll_eq (cs : list Container) (u : bool) :
  disableNodeLifecycleAll cs u
  = (map kcmContainerPatch cs,
     u || existsb (fun c => existsb patchable (Command c)) cs).
Proof.
  revert u; induction cs as [|c cs IH]; intros u.
  - cbn. now rewrite orb_false_r.
  - cbn [disableNodeLifecycleAll map existsb].
    pose proof (disableNodeLifecycle_flag (Command c) u) as Hf.
    pose proof (disableNodeLifecycle_fst (Command c) u) as Hc.
    destruct (disableNodeLifecycle (Command c) u) as [cmd v].
    cbn [fst snd] in Hf, Hc. rewrite IH. subst cmd v.
    unfold kcmContainerPatch. now rewrite orb_assoc.
Qed.

Lemma patchKAS_eq (p : Pod) :
  patchKAS p
  = setDNSPolicy (set_Containers p (map kasContainerPatch (Containers (Spec p))))
      (existsb (fun c => negb (Nat.eqb
         (matching kubeletPreferredAddressTypes (Command c)) 0))
         (Containers (Spec p))).
Proof. unfold patchKAS. now rewrite removeAddressTypesAll_eq. Qed.

Lemma patchKCM_eq (p : Pod) :
  patchKCM p
  = (set_Containers p (map kcmContainerPatch (Containers (Spec p))),
     existsb (fun c => existsb patchable (Command c)) (Containers (Spec p))).
Proof. unfold patchKCM. now rewrite disableNodeLifecycleAll_eq. Qed.

Lemma kasContainerPatch_none (c : Container) :
  matching kubeletPreferredAddressTypes (Command c) = 0%nat ->
  kasContainerPatch c = c.
Proof.
  intros Hm. unfold kasContainerPatch.
  rewrite (removeAddressTypes_none _ _ Hm). apply set_Command_same.
Qed.

Lemma kcmContainerPatch_none (c : Container) :
  existsb patchable (Command c) = false ->
  kcmContainerPatch c = c.
Proof.
  intros Hm. unfold kcmContainerPatch.
  rewrite disableNodeLifecycle_none; [apply set_Command_same|].
  apply Forall_forall. intros a Ha.
  destruct (patchable a) eqn:Hp; [|reflexivity].
  assert (existsb patchable (Command c) = true); [|congruence].
  apply existsb_exists. exists a. split; [|assumption].
  now apply list_elem_of_In.
Qed.

Lemma map_id_on {A} (f : A -> A) (l : list A) :
  Forall (fun x => f x = x) l -> map f l = l.
Proof. induction 1 as [|x l Hx _ IH]; [reflexivity|]. cbn. now rewrite Hx, IH. Qed.

Lemma existsb_false_Forall {A} (f : A -> bool) (l : list A) :
  existsb f l = false <-> Forall (fun x => f x = false) l.
Proof.
  induction l as [|x l IH]; [split; [constructor|reflexivity]|].
  cbn [existsb]. rewrite orb_false_iff, Forall_cons, IH. reflexivity.
Qed.

Lemma set_Containers_same (p : Pod) : set_Containers p (Containers (Spec p)) = p.
Proof. now destruct p as [n []]. Qed.

Lemma setDNSPolicy_settled (p : Pod) (u : bool) :
  DNSPolicy (Spec p) = DNSClusterFirstWithHostNet -> setDNSPolicy p u = (p, u).
Proof. unfold setDNSPolicy. intros ->. reflexivity. Qed.

Lemma setDNSPolicy_DNSPolicy (p : Pod) (u : bool) :
  DNSPolicy (Spec (fst (setDNSPolicy p u))) = DNSClusterFirstWithHostNet.
Proof.
  unfold setDNSPolicy.
  destruct (String.eqb_spec (DNSPolicy (Spec p)) DNSClusterFirstWithHostNet);
    [assumption|reflexivity].
Qed.

Lemma setDNSPolicy_Containers (p : Pod) (u : bool) :
  Containers (Spec (fst (setDNSPolicy p u))) = Containers (Spec p).
Proof. unfold setDNSPolicy. now destruct (negb _). Qed.

Lemma setDNSPolicy_flag (p : Pod) (u : bool) :
  snd (setDNSPolicy p u)
  = u || negb (String.eqb (DNSPolicy (Spec p)) DNSClusterFirstWithHostNet).
Proof.
  unfold setDNSPolicy. destruct (negb _); cbn [snd];
    [now rewrite orb_true_r|now rewrite orb_false_r].
Qed.

(** A run that leaves the flag unset has not changed the pod. *)
Lemma patchKAS_unchanged (p : Pod) : snd (patchKAS p) = false -> fst (patchKAS p) = p.
Proof.
  rewrite patchKAS_eq, setDNSPolicy_flag. cbn [DNSPolicy Spec set_Containers].
  intros [Hc Hd]%orb_false_iff.
  apply negb_false_iff, String.eqb_eq in Hd.
  rewrite setDNSPolicy_settled by exact Hd. cbn [fst].
  rewrite map_id_on; [apply set_Containers_same|].
  apply existsb_false_Forall in Hc.
  eapply Forall_impl; [exact Hc|]. intros c Hm. cbn in Hm.
  apply kasContainerPatch_none. now apply negb_false_iff, Nat.eqb_eq in Hm.
Qed.

Lemma patchKCM_unchanged (p : Pod) : snd (patchKCM p) = false -> fst (patchKCM p) = p.
Proof.
  rewrite patchKCM_eq. cbn [fst snd]. intros Hc.
  rewrite map_id_on; [apply set_Containers_same|].
  apply existsb_false_Forall in Hc.
  eapply Forall_impl; [exact Hc|]. intros c. apply kcmContainerPatch_none.
Qed.

(** Under the at-most-one invariant a patched pod is a fixed point. *)
Lemma patchKAS_settles (p : Pod) :
  atMostOne kubeletPreferredAddressTypes p ->
  patchKAS (fst (patchKAS p)) = (fst (patchKAS p), false).
Proof.
  intros Hinv. set (q := fst (patchKAS p)).
  assert (Hd : DNSPolicy (Spec q) = DNSClusterFirstWithHostNet).
  { unfold q. rewrite patchKAS_eq. apply setDNSPolicy_DNSPolicy. }
  assert (Hc : Forall (fun c =>
              matching kubeletPreferredAddressTypes (Command c) = 0%nat)
              (Containers (Spec q))).
  { unfold q. rewrite patchKAS_eq, setDNSPolicy_Containers.
    cbn [Containers Spec set_Containers]. apply Forall_map.
    eapply Forall_impl; [exact Hinv|]. intros c Hm. cbn.
    now apply removeAddressTypes_settles. }
  rewrite patchKAS_eq.
  rewrite map_id_on.
  2:{ eapply Forall_impl; [exact Hc|]. intros c. apply kasContainerPatch_none. }
  rewrite set_Containers_same, setDNSPolicy_settled by exact Hd.
  f_equal. apply existsb_false_Forall.
  eapply Forall_impl; [exact Hc|]. intros c Hm. cbn in *. now rewrite Hm.
Qed.

Lemma patchKCM_settles (p : Pod) :
  atMostOne controllersFlag p ->
  patchKCM (fst (patchKCM p)) = (fst (patchKCM p), false).
Proof.
  intros Hinv. set (q := fst (patchKCM p)).
  assert (Hc : Forall (fun c => existsb patchable (Command c) = false)
              (Containers (Spec q))).
  { unfold q. rewrite patchKCM_eq. cbn [fst Containers Spec set_Containers].
    apply Forall_map. eapply Forall_impl; [exact Hinv|]. intros c Hm. cbn.
    apply existsb_false_Forall. now apply disableNodeLifecycle_settles. }
  rewrite patchKCM_eq.
  rewrite map_id_on.
  2:{ eapply Forall_impl; [exact Hc|]. intros c. apply kcmContainerPatch_none. }
  rewrite set_Containers_same. f_equal. now apply existsb_false_Forall.
Qed.

Lemma lookup_map {A B} (f : A -> B) (l : list A) (i : nat) :
  map f l !! i = f <$> l !! i.
Proof.
  revert i; induction l as [|x l IH]; intros [|i]; try reflexivity.
  cbn. apply IH.
Qed.

Lemma patchKAS_Containers (p : Pod) :
  Containers (Spec (fst (patchKAS p)))
  = map kasContainerPatch (Containers (Spec p)).
Proof. now rewrite patchKAS_eq, setDNSPolicy_Containers. Qed.

Lemma patchKCM_Containers (p : Pod) :
  Containers (Spec (fst (patchKCM p)))
  = map kcmContainerPatch (Containers (Spec p)).
Proof. now rewrite patchKCM_eq. Qed.

Lemma matching_1_split (flag : string) (cmd : list string) :
  matching flag cmd = 1%nat ->
  exists pre a post,
    cmd = pre ++ a :: post /\ strings.Contains a flag = true
    /\ matching flag pre = 0%nat /\ matching flag post = 0%nat.
Proof.
  intros H1. destruct (matching_split flag cmd) as (pre & a & post & -> & Hpre & Ha);
    [lia|].
  exists pre, a, post. repeat split; try assumption.
  rewrite matching_app, matching_cons, Ha, Hpre in H1. lia.
Qed.

(** ** Flag removal in the kube-apiserver pod *)

(** C5. In a kube-apiserver pod, a container whose command has exactly one
    argument containing [kubelet-preferred-address-types=] loses exactly
    that argument (the arguments before and after it stay, in order), the
    flag [kasPodUpdated] is set, and no argument of the patched container
    contains the substring. *)
Theorem patchKAS_removes_flag (p : Pod) (i : nat) (c : Container) :
  Containers (Spec p) !! i = Some c ->
  matching kubeletPreferredAddressTypes (Command c) = 1%nat ->
  exists pre a post,
    Command c = pre ++ a :: post
    /\ strings.Contains a kubeletPreferredAddressTypes = true
    /\ removeAddressTypes (Command c) false = (pre ++ post, true)
    /\ Containers (Spec (fst (patchKAS p))) !! i
       = Some (set_Command c (pre ++ post))
    /\ snd (patchKAS p) = true
    /\ Forall (fun arg =>
         strings.Contains arg kubeletPreferredAddressTypes = false)
         (pre ++ post).
Proof.
  intros Hi H1.
  destruct (matching_1_split _ _ H1) as (pre & a & post & Hc & Ha & Hpre & Hpost).
  exists pre, a, post.
  assert (Hr : removeAddressTypes (Command c) false = (pre ++ post, true)).
  { rewrite Hc. now apply removeAddressTypes_first. }
  repeat split; try assumption.
  - rewrite patchKAS_Containers, lookup_map, Hi. cbn.
    unfold kasContainerPatch. now rewrite Hr.
  - rewrite patchKAS_eq, setDNSPolicy_flag. apply orb_true_iff. left.
    apply existsb_exists. exists c. split.
    + apply list_elem_of_In. now apply list_elem_of_lookup_2 with i.
    + now rewrite H1.
  - apply matching_0_Forall. rewrite matching_app. lia.
Qed.

(** ** DNS policy *)

(** C6. After the kube-apiserver patch the DNS policy is
    [ClusterFirstWithHostNet]; if it was another value the flag is set; if
    it already was that value, lines 99-102 leave the flag as the flag
    removal left it (so unset, when nothing was removed). *)
Theorem patchKAS_DNSPolicy (p : Pod) :
  DNSPolicy (Spec (fst (patchKAS p))) = DNSClusterFirstWithHostNet
  /\ (DNSPolicy (Spec p) <> DNSClusterFirstWithHostNet ->
      snd (patchKAS p) = true)
  /\ (DNSPolicy (Spec p) = DNSClusterFirstWithHostNet ->
      (forall u, setDNSPolicy p u = (p, u))
      /\ snd (patchKAS p)
         = snd (removeAddressTypesAll (Containers (Spec p)) false)).
Proof.
  split; [|split].
  - rewrite patchKAS_eq. apply setDNSPolicy_DNSPolicy.
  - intros Hne. rewrite patchKAS_eq, setDNSPolicy_flag.
    cbn [DNSPolicy Spec set_Containers].
    apply orb_true_iff. right. apply negb_true_iff.
    now apply String.eqb_neq.
  - intros Heq. split; [intros u; now apply setDNSPolicy_settled|].
    rewrite patchKAS_eq, setDNSPolicy_flag, removeAddressTypesAll_eq.
    cbn [DNSPolicy Spec set_Containers snd]. rewrite Heq, String.eqb_refl.
    cbn. now rewrite orb_false_r.
Qed.

(** ** Controller insertion in the kube-controller-manager pod *)

(** The insertion at a given position: when no argument before
    [--controllers=*,bootstrapsigner,tokencleaner] in the container is one
    the scan rewrites, the patch turns that argument into
    [--controllers=-nodelifecycle,*,bootstrapsigner,tokencleaner], leaves
    the other arguments of the container as they are, and sets
    [kcmPodUpdated]. *)
Lemma patchKCM_inserts_token_at (p : Pod) (i : nat) (c : Container)
    (pre post : list string) :
  Containers (Spec p) !! i = Some c ->
  Command c = pre ++ controllersArg :: post ->
  Forall (fun arg => patchable arg = false) pre ->
  insertNodelifecycle controllersArg = controllersArgPatched
  /\ Containers (Spec (fst (patchKCM p))) !! i
     = Some (set_Command c (pre ++ controllersArgPatched :: post))
  /\ snd (patchKCM p) = true.
Proof.
  intros Hi Hc Hpre.
  assert (Hr : disableNodeLifecycle (Command c) false
               = (pre ++ controllersArgPatched :: post, true)).
  { rewrite Hc. now rewrite disableNodeLifecycle_first. }
  split; [reflexivity|split].
  - rewrite patchKCM_Containers, lookup_map, Hi. cbn.
    unfold kcmContainerPatch. now rewrite Hr.
  - rewrite patchKCM_eq. cbn [snd]. apply existsb_exists. exists c. split.
    + apply list_elem_of_In. now apply list_elem_of_lookup_2 with i.
    + rewrite <- (orb_false_l (existsb _ _)), <- disableNodeLifecycle_flag.
      now rewrite Hr.
Qed.

(** C4. In a kube-controller-manager pod, take a container whose command
    holds the argument [--controllers=*,bootstrapsigner,tokencleaner] and,
    as the data model has it, at most one argument containing
    [--controllers=].  One patch rewrites that argument to
    [--controllers=-nodelifecycle,*,bootstrapsigner,tokencleaner] (the
    token right after the first [=]), leaves the arguments before and
    after it as they are, and sets [kcmPodUpdated]. *)
Theorem patchKCM_inserts_token (p : Pod) (i : nat) (c : Container) :
  Containers (Spec p) !! i = Some c ->
  In controllersArg (Command c) ->
  (matching controllersFlag (Command c) <= 1)%nat ->
  exists pre post,
    Command c = pre ++ controllersArg :: post
    /\ insertNodelifecycle controllersArg = controllersArgPatched
    /\ Containers (Spec (fst (patchKCM p))) !! i
       = Some (set_Command c (pre ++ controllersArgPatched :: post))
    /\ snd (patchKCM p) = true.
Proof.
  intros Hi Hin Hone.
  destruct (in_split _ _ Hin) as (pre & post & Hc).
  exists pre, post. split; [exact Hc|].
  apply (patchKCM_inserts_token_at p i c pre post Hi Hc).
  rewrite Hc, matching_app, matching_cons in Hone.
  change (strings.Contains controllersArg controllersFlag) with true in Hone.
  cbv iota in Hone.
  assert (H0 : matching controllersFlag pre = 0%nat) by lia.
  apply matching_0_Forall in H0.
  eapply Forall_impl; [exact H0|]. intros b. apply not_patchable_no_flag.
Qed.

(** C3, amended. In a container of the kube-controller-manager pod, an
    argument that contains [--controllers=] and, anywhere in it,
    [-nodelifecycle,] is never rewritten; when no earlier argument was
    rewritten, the scan passes over it without setting the flag and goes
    on with the arguments after it. *)
Theorem disableNodeLifecycle_token_present
    (pre post : list string) (a : string) (u : bool) :
  strings.Contains a controllersFlag = true ->
  strings.Contains a nodelifecycleToken = true ->
  fst (disableNodeLifecycle (pre ++ a :: post) u) !! length pre = Some a
  /\ (Forall (fun arg => patchable arg = false) pre ->
      disableNodeLifecycle (pre ++ a :: post) u
      = (pre ++ a :: fst (disableNodeLifecycle post u),
         snd (disableNodeLifecycle post u))).
Proof.
  intros Hc Ht.
  assert (Ha : patchable a = false).
  { unfold patchable. rewrite Hc, Ht. reflexivity. }
  split.
  - induction pre as [|b pre IH]; cbn [app length];
      rewrite disableNodeLifecycle_step.
    + now rewrite Ha.
    + destruct (patchable b); cbn [fst].
      * change ((pre ++ a :: post) !! length pre = Some a).
        now apply list_lookup_middle.
      * exact IH.
  - intros Hpre. induction Hpre as [|b pre Hb _ IH]; cbn [app];
      rewrite disableNodeLifecycle_step.
    + now rewrite Ha.
    + now rewrite Hb, IH.
Qed.

(** ** The runner over any accessor *)

Section RunnerFacts.
Context {W : Type} {FU : FileUtil W} {FP : Filepath}.

Lemma Do_loaded (spr : staticPodRunner) (s : State W) (kasPod kcmPod : Pod) :
  ReadObjectFromYamlFile (kasStaticPodPath spr) (world s)
    = Ok (PodObject kasPod) ->
  ReadObjectFromYamlFile (kcmStaticPodPath spr) (world s)
    = Ok (PodObject kcmPod) ->
  Do spr s
  = writeBack spr (fst (patchKAS kasPod)) (snd (patchKAS kasPod))
      (fst (patchKCM kcmPod)) (snd (patchKCM kcmPod))
      {| world := world s;
         trace := trace s ++ [EvRead (kasStaticPodPath spr);
                              EvRead (kcmStaticPodPath spr)] |}.
Proof.
  intros Hkas Hkcm. unfold Do, bind, readObject, log. cbn [world trace].
  rewrite Hkas. destruct (patchKAS kasPod) as [kp ku]. cbn [world trace].
  rewrite Hkcm. destruct (patchKCM kcmPod) as [cp cu]. cbn [fst snd].
  now rewrite <- app_assoc.
Qed.

(** C8. When [kube-apiserver.yaml] loads as an object that is not a pod,
    [Do] returns the type-mismatch error naming that file; its only
    accessor call is that load, so the kube-controller-manager manifest
    is neither loaded nor written, and the file system is as before. *)
Theorem Do_kas_not_a_pod (spr : staticPodRunner) (s : State W) (kind : string) :
  ReadObjectFromYamlFile (kasStaticPodPath spr) (world s)
    = Ok (OtherObject kind) ->
  Do spr s
  = (Err ("manifest file(" +:+ kasStaticPodPath spr
          +:+ ") is not a static pod"),
     {| world := world s;
        trace := trace s ++ [EvRead (kasStaticPodPath spr)] |}).
Proof.
  intros Hkas. unfold Do, bind, readObject, log. cbn [world trace].
  now rewrite Hkas.
Qed.

(** C2, amended. When both flags are set and writing the kube-apiserver
    manifest fails, [Do] returns that error at once: the trace ends with
    the failed write, and no write of the kube-controller-manager
    manifest is attempted. *)
Theorem Do_kas_write_failure_aborts (spr : staticPodRunner) (s : State W)
    (kasPod kcmPod : Pod) (e : error) (w' : W) :
  ReadObjectFromYamlFile (kasStaticPodPath spr) (world s)
    = Ok (PodObject kasPod) ->
  ReadObjectFromYamlFile (kcmStaticPodPath spr) (world s)
    = Ok (PodObject kcmPod) ->
  snd (patchKAS kasPod) = true ->
  snd (patchKCM kcmPod) = true ->
  WriteObjectToYamlFile (PodObject (fst (patchKAS kasPod)))
    (kasStaticPodPath spr) (world s) = (Some e, w') ->
  Do spr s
  = (Err e,
     {| world := w';
        trace := trace s ++ [EvRead (kasStaticPodPath spr);
                             EvRead (kcmStaticPodPath spr);
                             EvWrite (PodObject (fst (patchKAS kasPod)))
                               (kasStaticPodPath spr)] |}).
Proof.
  intros Hkas Hkcm Hku Hcu Hw. rewrite (Do_loaded _ _ _ _ Hkas Hkcm).
  rewrite Hku, Hcu. unfold writeBack, bind, writeObject. cbn [world trace].
  rewrite Hw. now rewrite <- app_assoc.
Qed.

Lemma newStaticPodRunner_eq (dir : string) (s : State W) :
  let kasPath := filepath_Join dir "kube-apiserver.yaml" in
  let kcmPath := filepath_Join dir "kube-controller-manager.yaml" in
  newStaticPodRunner dir s
  = if negb (fst (FileExists kasPath (world s)))
    then (Err (kasPath +:+ " file is not exist"),
          {| world := world s; trace := trace s ++ [EvFileExists kasPath] |})
    else if negb (fst (FileExists kcmPath (world s)))
    then (Err (kcmPath +:+ " file is not exist"),
          {| world := world s;
             trace := trace s ++ [EvFileExists kasPath;
                                  EvFileExists kcmPath] |})
    else (Ok {| kasStaticPodPath := kasPath; kcmStaticPodPath := kcmPath |},
          {| world := world s;
             trace := trace s ++ [EvFileExists kasPath;
                                  EvFileExists kcmPath] |}).
Proof.
  intros kasPath kcmPath.
  unfold newStaticPodRunner, bind, fileExists, log, fail, ret.
  fold kasPath kcmPath. cbn [world trace].
  destruct (FileExists kasPath (world s)) as [[] e1];
    cbn [fst negb world trace]; [|reflexivity].
  destruct (FileExists kcmPath (world s)) as [[] e2]; cbn [fst negb];
    now rewrite <- app_assoc.
Qed.

(** A runner the factory returns is bound to the two joined paths. *)
Lemma newStaticPodRunner_paths (dir : string) (s s' : State W)
    (spr : staticPodRunner) :
  newStaticPodRunner dir s = (Ok spr, s') ->
  kasStaticPodPath spr = filepath_Join dir "kube-apiserver.yaml"
  /\ kcmStaticPodPath spr = filepath_Join dir "kube-controller-manager.yaml"
  /\ fst (FileExists (kasStaticPodPath spr) (world s)) = true
  /\ fst (FileExists (kcmStaticPodPath spr) (world s)) = true
  /\ world s' = world s.
Proof.
  rewrite newStaticPodRunner_eq.
  destruct (fst (FileExists _ (world s))) eqn:Hkas; cbn [negb];
    [|discriminate].
  destruct (fst (FileExists (filepath_Join dir "kube-controller-manager.yaml")
                   (world s))) eqn:Hkcm; cbn [negb]; [|discriminate].
  intros [= <- <-]. cbn. auto.
Qed.

(** C9. In mode [pod], when the probe finds [kube-apiserver.yaml] and
    does not find [kube-controller-manager.yaml], the factory fails with
    the error naming the missing path; it has made the two existence
    checks and nothing else, and returns no runner.  In any other mode
    it fails with the error naming the mode, without any accessor
    call. *)
Theorem NewControlPlaneRunner_fails (o : ControlPlaneOptions) (s : State W) :
  let kasPath := filepath_Join (PodManifestsPath o) "kube-apiserver.yaml" in
  let kcmPath :=
    filepath_Join (PodManifestsPath o) "kube-controller-manager.yaml" in
  (RunMode o = "pod" ->
   fst (FileExists kasPath (world s)) = true ->
   fst (FileExists kcmPath (world s)) = false ->
   NewControlPlaneRunner o s
   = (Err (kcmPath +:+ " file is not exist"),
      {| world := world s;
         trace := trace s ++ [EvFileExists kasPath;
                              EvFileExists kcmPath] |}))
  /\ (RunMode o <> "pod" ->
      NewControlPlaneRunner o s
      = (Err (RunMode o
              +:+ " mode is not supported, only static pod mode is implemented"),
         s)).
Proof.
  intros kasPath kcmPath. unfold NewControlPlaneRunner. split.
  - intros -> Hkas Hkcm. cbn [String.eqb Ascii.eqb Bool.eqb].
    rewrite newStaticPodRunner_eq. fold kasPath kcmPath.
    now rewrite Hkas, Hkcm.
  - intros Hmode. apply String.eqb_neq in Hmode. now rewrite Hmode.
Qed.

(** C10. The factory reads only the boolean of the probe.  When the
    probe of a path returns an error (with [false], as the probe does
    when it fails), the factory reports that path as a file that does
    not exist; the probe's own error appears nowhere in the result. *)
Theorem newStaticPodRunner_discards_probe_error (dir : string) (s : State W) :
  let kasPath := filepath_Join dir "kube-apiserver.yaml" in
  let kcmPath := filepath_Join dir "kube-controller-manager.yaml" in
  (forall e, FileExists kasPath (world s) = (false, Some e) ->
     newStaticPodRunner dir s
     = (Err (kasPath +:+ " file is not exist"),
        {| world := world s; trace := trace s ++ [EvFileExists kasPath] |}))
  /\ (forall e, fst (FileExists kasPath (world s)) = true ->
        FileExists kcmPath (world s) = (false, Some e) ->
        newStaticPodRunner dir s
        = (Err (kcmPath +:+ " file is not exist"),
           {| world := world s;
              trace := trace s ++ [EvFileExists kasPath;
                                   EvFileExists kcmPath] |}))
  /\ fst (newStaticPodRunner dir s)
     = if negb (fst (FileExists kasPath (world s)))
       then Err (kasPath +:+ " file is not exist")
       else if negb (fst (FileExists kcmPath (world s)))
       then Err (kcmPath +:+ " file is not exist")
       else Ok {| kasStaticPodPath := kasPath; kcmStaticPodPath := kcmPath |}.
Proof.
  intros kasPath kcmPath. pose proof (newStaticPodRunner_eq dir s) as Heq.
  cbv zeta in Heq. fold kasPath kcmPath in Heq. rewrite Heq.
  split; [|split].
  - intros e ->. reflexivity.
  - intros e -> ->. reflexivity.
  - destruct (negb _); [reflexivity|]. now destruct (negb _).
Qed.

End RunnerFacts.

Section RunnerLaws.
Context {W : Type} {FU : FileUtil W} {FL : FileUtilLaws W}.

Lemma is_write_to_other (p q : string) (obj : Object) :
  p <> q -> is_write_to p (EvWrite obj q) = false.
Proof. intros Hne. cbn. apply String.eqb_neq. congruence. Qed.

(** The write-back step, for a manifest whose flag is unset. *)
Lemma writeBack_untouched (spr : staticPodRunner) (kasPod kcmPod : Pod)
    (kasPodUpdated kcmPodUpdated : bool) (s : State W) :
  kasStaticPodPath spr <> kcmStaticPodPath spr ->
  let s' := snd (writeBack spr kasPod kasPodUpdated kcmPod kcmPodUpdated s) in
  (kasPodUpdated = false ->
   (exists evs, trace s' = trace s ++ evs
                /\ existsb (is_write_to (kasStaticPodPath spr)) evs = false)
   /\ ReadObjectFromYamlFile (kasStaticPodPath spr) (world s')
      = ReadObjectFromYamlFile (kasStaticPodPath spr) (world s))
  /\ (kcmPodUpdated = false ->
      (exists evs, trace s' = trace s ++ evs
                   /\ existsb (is_write_to (kcmStaticPodPath spr)) evs = false)
      /\ ReadObjectFromYamlFile (kcmStaticPodPath spr) (world s')
         = ReadObjectFromYamlFile (kcmStaticPodPath spr) (world s)).
Proof.
  intros Hne. unfold writeBack, bind, writeObject, ret.
  destruct kasPodUpdated, kcmPodUpdated; cbn [world trace].
  - split; discriminate.
  - destruct (WriteObjectToYamlFile _ _ _) as [[e|] w1] eqn:Hw;
      cbn [snd world trace]; (split; [discriminate|intros _; split]).
    1,3: exists [EvWrite (PodObject kasPod) (kasStaticPodPath spr)];
      split; [reflexivity|]; cbn [existsb];
      now rewrite is_write_to_other by congruence.
    all: now rewrite (read_write_other _ _ _ _ _ _ Hw) by congruence.
  - destruct (WriteObjectToYamlFile _ _ _) as [[e|] w1] eqn:Hw;
      cbn [snd world trace]; (split; [intros _; split|discriminate]).
    1,3: exists [EvWrite (PodObject kcmPod) (kcmStaticPodPath spr)];
      split; [reflexivity|]; cbn [existsb];
      now rewrite is_write_to_other by congruence.
    all: now rewrite (read_write_other _ _ _ _ _ _ Hw) by congruence.
  - cbn [snd]. split; intros _; (split; [|reflexivity]);
      exists []; now rewrite app_nil_r.
Qed.

(** C7. In a run of [Do] that reaches the write-back step, a manifest
    whose flag is [false] gets no save call (no write event for its path
    among the events of the run) and loads after the run as it did
    before; and no step ever resets a flag that is set. *)
Theorem Do_skips_unchanged_manifest (spr : staticPodRunner) (s : State W)
    (kasPod kcmPod : Pod) :
  kasStaticPodPath spr <> kcmStaticPodPath spr ->
  ReadObjectFromYamlFile (kasStaticPodPath spr) (world s)
    = Ok (PodObject kasPod) ->
  ReadObjectFromYamlFile (kcmStaticPodPath spr) (world s)
    = Ok (PodObject kcmPod) ->
  let s' := snd (Do spr s) in
  (snd (patchKAS kasPod) = false ->
   (exists evs, trace s' = trace s ++ evs
                /\ existsb (is_write_to (kasStaticPodPath spr)) evs = false)
   /\ ReadObjectFromYamlFile (kasStaticPodPath spr) (world s')
      = ReadObjectFromYamlFile (kasStaticPodPath spr) (world s))
  /\ (snd (patchKCM kcmPod) = false ->
      (exists evs, trace s' = trace s ++ evs
                   /\ existsb (is_write_to (kcmStaticPodPath spr)) evs = false)
      /\ ReadObjectFromYamlFile (kcmStaticPodPath spr) (world s')
         = ReadObjectFromYamlFile (kcmStaticPodPath spr) (world s))
  /\ (forall cmd, snd (removeAddressTypes cmd true) = true)
  /\ (forall cs, snd (removeAddressTypesAll cs true) = true)
  /\ (forall p, snd (setDNSPolicy p true) = true)
  /\ (forall cmd, snd (disableNodeLifecycle cmd true) = true)
  /\ (forall cs, snd (disableNodeLifecycleAll cs true) = true).
Proof.
  intros Hne Hkas Hkcm s'. unfold s'. rewrite (Do_loaded _ _ _ _ Hkas Hkcm).
  set (s0 := {| world := world s; trace := _ |}).
  pose proof (writeBack_untouched spr (fst (patchKAS kasPod))
                (fst (patchKCM kcmPod)) (snd (patchKAS kasPod))
                (snd (patchKCM kcmPod)) s0 Hne) as [Hk Hc].
  assert (Hevs : forall path evs,
             trace (snd (writeBack spr (fst (patchKAS kasPod))
                           (snd (patchKAS kasPod)) (fst (patchKCM kcmPod))
                           (snd (patchKCM kcmPod)) s0)) = trace s0 ++ evs ->
             existsb (is_write_to path) evs = false ->
             exists evs', trace (snd (writeBack spr (fst (patchKAS kasPod))
                           (snd (patchKAS kasPod)) (fst (patchKCM kcmPod))
                           (snd (patchKCM kcmPod)) s0)) = trace s ++ evs'
                          /\ existsb (is_write_to path) evs' = false).
  { intros path evs -> He. unfold s0. cbn [trace]. rewrite <- app_assoc.
    eexists. split; [reflexivity|]. exact He. }
  split; [|split; [|repeat split]].
  - intros Hu. destruct (Hk Hu) as [(evs & Ht & He) Hr].
    split; [now apply Hevs with evs|exact Hr].
  - intros Hu. destruct (Hc Hu) as [(evs & Ht & He) Hr].
    split; [now apply Hevs with evs|exact Hr].
  - intros cmd. now rewrite removeAddressTypes_flag.
  - intros cs. now rewrite removeAddressTypesAll_eq.
  - intros p. now rewrite setDNSPolicy_flag.
  - intros cmd. now rewrite disableNodeLifecycle_flag.
  - intros cs. now rewrite disableNodeLifecycleAll_eq.
Qed.

(** What a successful write-back leaves on disk. *)
Lemma writeBack_ok (spr : staticPodRunner) (kasPod kcmPod : Pod)
    (kasPodUpdated kcmPodUpdated : bool) (s s1 : State W) :
  kasStaticPodPath spr <> kcmStaticPodPath spr ->
  writeBack spr kasPod kasPodUpdated kcmPod kcmPodUpdated s = (Ok tt, s1) ->
  ReadObjectFromYamlFile (kasStaticPodPath spr) (world s1)
  = (if kasPodUpdated then Ok (PodObject kasPod)
     else ReadObjectFromYamlFile (kasStaticPodPath spr) (world s))
  /\ ReadObjectFromYamlFile (kcmStaticPodPath spr) (world s1)
     = (if kcmPodUpdated then Ok (PodObject kcmPod)
        else ReadObjectFromYamlFile (kcmStaticPodPath spr) (world s)).
Proof.
  intros Hne. unfold writeBack, bind, writeObject, ret.
  destruct kasPodUpdated; cbn [world trace].
  - destruct (WriteObjectToYamlFile _ _ (world s)) as [[e|] w1] eqn:Hw1;
      [discriminate|].
    destruct kcmPodUpdated; cbn [world trace].
    + destruct (WriteObjectToYamlFile _ _ w1) as [[e|] w2] eqn:Hw2;
        [discriminate|].
      intros [= <-]. cbn [world]. split.
      * rewrite (read_write_other _ _ _ _ _ _ Hw2) by congruence.
        now apply read_after_write with (w := world s).
      * now apply read_after_write with (w := w1).
    + intros [= <-]. cbn [world]. split.
      * now apply read_after_write with (w := world s).
      * now rewrite (read_write_other _ _ _ _ _ _ Hw1) by congruence.
  - destruct kcmPodUpdated; cbn [world trace].
    + destruct (WriteObjectToYamlFile _ _ (world s)) as [[e|] w2] eqn:Hw2;
        [discriminate|].
      intros [= <-]. cbn [world]. split.
      * now rewrite (read_write_other _ _ _ _ _ _ Hw2) by congruence.
      * now apply read_after_write with (w := world s).
    + intros [= <-]. split; reflexivity.
Qed.

(** C1. Start from two manifests that load as pods and keep the
    at-most-one invariant for the flag each loop looks for.  After a run
    of [Do] that returns [nil], each file holds the patched pod; patching
    those again changes nothing and sets neither flag; and a second run
    of [Do] returns [nil] after its two loads, without any write and with
    the file system as the first run left it. *)
Theorem Do_idempotent (spr : staticPodRunner) (s s1 : State W)
    (kasPod kcmPod : Pod) :
  kasStaticPodPath spr <> kcmStaticPodPath spr ->
  ReadObjectFromYamlFile (kasStaticPodPath spr) (world s)
    = Ok (PodObject kasPod) ->
  ReadObjectFromYamlFile (kcmStaticPodPath spr) (world s)
    = Ok (PodObject kcmPod) ->
  atMostOne kubeletPreferredAddressTypes kasPod ->
  atMostOne controllersFlag kcmPod ->
  Do spr s = (Ok tt, s1) ->
  let kasPod1 := fst (patchKAS kasPod) in
  let kcmPod1 := fst (patchKCM kcmPod) in
  ReadObjectFromYamlFile (kasStaticPodPath spr) (world s1)
    = Ok (PodObject kasPod1)
  /\ ReadObjectFromYamlFile (kcmStaticPodPath spr) (world s1)
     = Ok (PodObject kcmPod1)
  /\ patchKAS kasPod1 = (kasPod1, false)
  /\ patchKCM kcmPod1 = (kcmPod1, false)
  /\ Do spr s1
     = (Ok tt,
        {| world := world s1;
           trace := trace s1 ++ [EvRead (kasStaticPodPath spr);
                                 EvRead (kcmStaticPodPath spr)] |}).
Proof.
  intros Hne Hkas Hkcm Hinv1 Hinv2 Hdo kasPod1 kcmPod1.
  rewrite (Do_loaded _ _ _ _ Hkas Hkcm) in Hdo.
  apply writeBack_ok in Hdo as [Hr1 Hr2]; [|assumption].
  cbn [world] in Hr1, Hr2.
  assert (Hk : ReadObjectFromYamlFile (kasStaticPodPath spr) (world s1)
               = Ok (PodObject kasPod1)).
  { rewrite Hr1. destruct (snd (patchKAS kasPod)) eqn:Hu; [reflexivity|].
    unfold kasPod1. now rewrite (patchKAS_unchanged _ Hu). }
  assert (Hc : ReadObjectFromYamlFile (kcmStaticPodPath spr) (world s1)
               = Ok (PodObject kcmPod1)).
  { rewrite Hr2. destruct (snd (patchKCM kcmPod)) eqn:Hu; [reflexivity|].
    unfold kcmPod1. now rewrite (patchKCM_unchanged _ Hu). }
  pose proof (patchKAS_settles _ Hinv1) as Hs1.
  pose proof (patchKCM_settles _ Hinv2) as Hs2.
  fold kasPod1 in Hs1. fold kcmPod1 in Hs2.
  repeat split; try assumption.
  rewrite (Do_loaded _ _ _ _ Hk Hc), Hs1, Hs2. reflexivity.
Qed.

End RunnerLaws.

(** ** The in-memory file system is an accessor *)

#[export] Instance MemFS_Laws : FileUtilLaws MemFS.
Proof.
  split.
  - intros obj p w w'. cbn. unfold memWrite, memRead.
    destruct (bool_decide _); [discriminate|]. intros [= <-]. cbn.
    now rewrite lookup_insert_eq.
  - intros obj p q w e w' Hw Hne. cbn in *. unfold memWrite, memRead in *.
    destruct (bool_decide _); injection Hw as <- <-; [reflexivity|]. cbn.
    now rewrite lookup_insert_ne by congruence.
Qed.

(** ** The claims on the sample manifests *)

Lemma kasPath0_neq_kcmPath0 : kasPath0 <> kcmPath0.
Proof. discriminate. Qed.

Lemma Do_idempotent_witness :
  let s1 := snd (run (Do spr0) fs0) in
  Do spr0 s1
  = (Ok tt,
     {| world := world s1;
        trace := trace s1 ++ [EvRead kasPath0; EvRead kcmPath0] |}).
Proof.
  intros s1.
  refine (proj2 (proj2 (proj2 (proj2
    (Do_idempotent spr0 {| world := fs0; trace := [] |} s1 kasPod0 kcmPod0
       kasPath0_neq_kcmPath0 _ _ _ _ _))))).
  - vm_compute; reflexivity.
  - vm_compute; reflexivity.
  - repeat constructor.
  - repeat constructor.
  - vm_compute; reflexivity.
Defined.

(** C2 as stated fails: with both flags set and the kube-apiserver
    manifest read-only, the run makes no write call for the
    kube-controller-manager manifest. *)
Lemma Do_kas_write_failure_counterexample :
  let s' := snd (run (Do spr0) fsReadOnlyKAS) in
  snd (patchKAS kasPod0) = true
  /\ snd (patchKCM kcmPod0) = true
  /\ fst (WriteObjectToYamlFile (PodObject (fst (patchKAS kasPod0)))
            kasPath0 fsReadOnlyKAS)
     = Some "open /etc/kubernetes/manifests/kube-apiserver.yaml: permission denied"
  /\ existsb (is_write_to kcmPath0) (trace s') = false
  /\ ReadObjectFromYamlFile kcmPath0 (world s') = Ok (PodObject kcmPod0).
Proof. vm_compute. repeat split; reflexivity. Qed.

Lemma Do_kas_write_failure_aborts_witness :
  run (Do spr0) fsReadOnlyKAS
  = (Err "open /etc/kubernetes/manifests/kube-apiserver.yaml: permission denied",
     {| world := fsReadOnlyKAS;
        trace := [EvRead kasPath0; EvRead kcmPath0;
                  EvWrite (PodObject (fst (patchKAS kasPod0))) kasPath0] |}).
Proof.
  apply (Do_kas_write_failure_aborts spr0
           {| world := fsReadOnlyKAS; trace := [] |} kasPod0 kcmPod0);
    vm_compute; reflexivity.
Defined.

(** C3 as stated fails: the second argument holds the token right after
    the [=], yet the scan goes on, rewrites the third argument and sets the
    flag; and a token further to the right counts as present. *)
Lemma disableNodeLifecycle_token_counterexample :
  let cmd := ["kube-controller-manager"; controllersArgPatched;
              "--controllers=*"] in
  String.prefix (controllersFlag +:+ nodelifecycleToken) controllersArgPatched
  = true
  /\ disableNodeLifecycle cmd false
     = (["kube-controller-manager"; controllersArgPatched;
         "--controllers=-nodelifecycle,*"], true)
  /\ disableNodeLifecycle cmd false <> (cmd, false)
  /\ disableNodeLifecycle ["--controllers=*,-nodelifecycle,x"] false
     = (["--controllers=*,-nodelifecycle,x"], false).
Proof. vm_compute. repeat split; try reflexivity. discriminate. Qed.

Lemma disableNodeLifecycle_token_present_witness :
  disableNodeLifecycle
    ["kube-controller-manager"; controllersArgPatched; "--controllers=*"] false
  = (["kube-controller-manager"; controllersArgPatched;
      "--controllers=-nodelifecycle,*"], true).
Proof.
  apply (proj2 (disableNodeLifecycle_token_present
                  ["kube-controller-manager"] ["--controllers=*"]
                  controllersArgPatched false eq_refl eq_refl)).
  repeat constructor.
Defined.

(** Outside the data model: in a container with two [--controllers=]
    arguments the earlier one is rewritten and the later one stays as it
    was. *)
Lemma patchKCM_two_flags_first_wins :
  exists c,
    Containers (Spec kcmPodTwoFlags) = [c]
    /\ In controllersArg (Command c)
    /\ Containers (Spec (fst (patchKCM kcmPodTwoFlags)))
       = [set_Command c ["kube-controller-manager";
                         "--controllers=-nodelifecycle,foo"; controllersArg]]
    /\ ~ In controllersArgPatched
           ["kube-controller-manager"; "--controllers=-nodelifecycle,foo";
            controllersArg].
Proof.
  eexists. split; [reflexivity|]. split; [cbn; tauto|].
  split; [vm_compute; reflexivity|].
  cbn. intros [H|[H|[H|[]]]]; discriminate H.
Qed.

Lemma patchKCM_inserts_token_witness :
  exists pre post,
    Command kcmContainer = pre ++ controllersArg :: post
    /\ insertNodelifecycle controllersArg = controllersArgPatched
    /\ Containers (Spec (fst (patchKCM kcmPod0))) !! 0%nat
       = Some (set_Command kcmContainer (pre ++ controllersArgPatched :: post))
    /\ snd (patchKCM kcmPod0) = true.
Proof.
  apply (patchKCM_inserts_token kcmPod0 0 kcmContainer).
  - reflexivity.
  - right. now left.
  - vm_compute. lia.
Defined.

Lemma patchKAS_removes_flag_witness :
  exists pre a post,
    Command kasContainer = pre ++ a :: post
    /\ strings.Contains a kubeletPreferredAddressTypes = true
    /\ removeAddressTypes (Command kasContainer) false = (pre ++ post, true)
    /\ Containers (Spec (fst (patchKAS kasPod0))) !! 0%nat
       = Some (set_Command kasContainer (pre ++ post))
    /\ snd (patchKAS kasPod0) = true
    /\ Forall (fun arg =>
         strings.Contains arg kubeletPreferredAddressTypes = false)
         (pre ++ post).
Proof. apply (patchKAS_removes_flag kasPod0 0 kasContainer); reflexivity. Defined.

Lemma patchKAS_DNSPolicy_witness :
  snd (patchKAS kasPod0) = true
  /\ snd (patchKAS (fst (patchKAS kasPod0)))
     = snd (removeAddressTypesAll
              (Containers (Spec (fst (patchKAS kasPod0)))) false).
Proof.
  split.
  - apply (proj1 (proj2 (patchKAS_DNSPolicy kasPod0))). discriminate.
  - apply (proj2 (proj2 (patchKAS_DNSPolicy (fst (patchKAS kasPod0))))).
    reflexivity.
Defined.

Lemma Do_skips_unchanged_manifest_witness :
  (let s' := snd (run (Do spr0) fsKasPatched) in
   (exists evs, trace s' = [] ++ evs
                /\ existsb (is_write_to kasPath0) evs = false)
   /\ ReadObjectFromYamlFile kasPath0 (world s')
      = ReadObjectFromYamlFile kasPath0 fsKasPatched)
  /\ (let s' := snd (run (Do spr0) fsKcmPatched) in
      (exists evs, trace s' = [] ++ evs
                   /\ existsb (is_write_to kcmPath0) evs = false)
      /\ ReadObjectFromYamlFile kcmPath0 (world s')
         = ReadObjectFromYamlFile kcmPath0 fsKcmPatched).
Proof.
  split.
  - refine (proj1 (Do_skips_unchanged_manifest spr0
                     {| world := fsKasPatched; trace := [] |}
                     (fst (patchKAS kasPod0)) kcmPod0
                     kasPath0_neq_kcmPath0 _ _) _);
      vm_compute; reflexivity.
  - refine (proj1 (proj2 (Do_skips_unchanged_manifest spr0
                     {| world := fsKcmPatched; trace := [] |}
                     kasPod0 (fst (patchKCM kcmPod0))
                     kasPath0_neq_kcmPath0 _ _)) _);
      vm_compute; reflexivity.
Defined.

Lemma Do_kas_not_a_pod_witness :
  run (Do spr0) fsConfigMap
  = (Err "manifest file(/etc/kubernetes/manifests/kube-apiserver.yaml) is not a static pod",
     {| world := fsConfigMap; trace := [EvRead kasPath0] |}).
Proof.
  apply (Do_kas_not_a_pod spr0 {| world := fsConfigMap; trace := [] |}
           "ConfigMap").
  reflexivity.
Defined.

Lemma NewControlPlaneRunner_fails_witness :
  run (NewControlPlaneRunner {| RunMode := "pod"; PodManifestsPath := manifests |})
      fsNoKCM
  = (Err "/etc/kubernetes/manifests/kube-controller-manager.yaml file is not exist",
     {| world := fsNoKCM;
        trace := [EvFileExists kasPath0; EvFileExists kcmPath0] |})
  /\ run (NewControlPlaneRunner
            {| RunMode := "daemon"; PodManifestsPath := manifests |}) fsNoKCM
     = (Err "daemon mode is not supported, only static pod mode is implemented",
        {| world := fsNoKCM; trace := [] |}).
Proof.
  split.
  - pose proof (proj1 (NewControlPlaneRunner_fails
                         {| RunMode := "pod"; PodManifestsPath := manifests |}
                         {| world := fsNoKCM; trace := [] |})
                  eq_refl eq_refl eq_refl) as Hpod.
    vm_compute in Hpod |- *. exact Hpod.
  - pose proof (proj2 (NewControlPlaneRunner_fails
                         {| RunMode := "daemon"; PodManifestsPath := manifests |}
                         {| world := fsNoKCM; trace := [] |})) as Hmode.
    cbn [RunMode] in Hmode. specialize (Hmode ltac:(discriminate)).
    vm_compute in Hmode |- *. exact Hmode.
Defined.

Lemma newStaticPodRunner_discards_probe_error_witness :
  FileExists kasPath0 fs0 = (true, None)
  /\ run (newStaticPodRunner manifests) fsStatDenied
     = (Err "/etc/kubernetes/manifests/kube-apiserver.yaml file is not exist",
        {| world := fsStatDenied; trace := [EvFileExists kasPath0] |}).
Proof.
  split; [reflexivity|].
  pose proof (proj1 (newStaticPodRunner_discards_probe_error manifests
                       {| world := fsStatDenied; trace := [] |})
                "stat /etc/kubernetes/manifests/kube-apiserver.yaml: permission denied"
                eq_refl) as Hprobe.
  vm_compute in Hprobe |- *. exact Hprobe.
Defined.

(** * Further properties of the transformations *)

Lemma matching_le_length (flag : string) (cmd : list string) :
  (matching flag cmd <= length cmd)%nat.
Proof.
  induction cmd as [|a cmd IH]; [cbn; lia|].
  rewrite matching_cons. cbn [length].
  destruct (strings.Contains a flag); lia.
Qed.

Lemma matching_pos_iff (flag : string) (cmd : list string) :
  Nat.eqb (matching flag cmd) 0 = false
  <-> exists a, In a cmd /\ strings.Contains a flag = true.
Proof.
  induction cmd as [|a cmd IH].
  - split; [discriminate|intros (a & [] & _)].
  - rewrite matching_cons. destruct (strings.Contains a flag) eqn:Ha.
    + split; [|reflexivity]. intros _. exists a. split; [now left|assumption].
    + cbn [Nat.add]. rewrite IH. split.
      * intros (b & Hb & Hm). exists b. split; [now right|assumption].
      * intros (b & [->|Hb] & Hm); [congruence|]. now exists b.
Qed.

Lemma removeAddressTypes_matching (cmd : list string) (u : bool) :
  matching kubeletPreferredAddressTypes (fst (removeAddressTypes cmd u))
  = Nat.pred (matching kubeletPreferredAddressTypes cmd).
Proof.
  induction cmd as [|a cmd IH]; [reflexivity|].
  rewrite matching_cons. cbn [removeAddressTypes].
  destruct (strings.Contains a kubeletPreferredAddressTypes) eqn:Ha.
  - reflexivity.
  - destruct (removeAddressTypes cmd u) as [r v]. cbn [fst] in *.
    now rewrite matching_cons, Ha.
Qed.

Lemma removeAddressTypes_length (cmd : list string) (u : bool) :
  length (fst (removeAddressTypes cmd u))
  = (length cmd
     - (if Nat.eqb (matching kubeletPreferredAddressTypes cmd) 0
        then 0 else 1))%nat.
Proof.
  induction cmd as [|a cmd IH]; [reflexivity|].
  rewrite matching_cons. cbn [removeAddressTypes].
  destruct (strings.Contains a kubeletPreferredAddressTypes) eqn:Ha.
  - cbn. lia.
  - destruct (removeAddressTypes cmd u) as [r v]. cbn [fst length Nat.add] in *.
    rewrite IH.
    pose proof (matching_le_length kubeletPreferredAddressTypes cmd).
    destruct (Nat.eqb_spec (matching kubeletPreferredAddressTypes cmd) 0); lia.
Qed.

(** X1. One scan of a kube-apiserver command removes the first matching
    argument and nothing else, also when several arguments match: with the
    command split at its first matching argument the result is what stood
    before it followed by what stood after it, with the flag set; a
    command without a matching argument comes back as it is, with the flag
    as it was.  So the number of matching arguments drops by one (or stays
    zero), the arguments that do not match are all kept, in order, and the
    length drops by one exactly when something matched. *)
Theorem removeAddressTypes_removes_first_only (cmd : list string) (u : bool) :
  (forall pre a post,
     cmd = pre ++ a :: post ->
     matching kubeletPreferredAddressTypes pre = 0%nat ->
     strings.Contains a kubeletPreferredAddressTypes = true ->
     removeAddressTypes cmd u = (pre ++ post, true))
  /\ (matching kubeletPreferredAddressTypes cmd = 0%nat ->
      removeAddressTypes cmd u = (cmd, u))
  /\ matching kubeletPreferredAddressTypes (fst (removeAddressTypes cmd u))
     = Nat.pred (matching kubeletPreferredAddressTypes cmd)
  /\ List.filter
       (fun a => negb (strings.Contains a kubeletPreferredAddressTypes))
       (fst (removeAddressTypes cmd u))
     = List.filter
         (fun a => negb (strings.Contains a kubeletPreferredAddressTypes)) cmd
  /\ length (fst (removeAddressTypes cmd u))
     = (length cmd
        - (if Nat.eqb (matching kubeletPreferredAddressTypes cmd) 0
           then 0 else 1))%nat.
Proof.
  split; [intros pre a post -> Hpre Ha; now apply removeAddressTypes_first|].
  split; [apply removeAddressTypes_none|].
  split; [apply removeAddressTypes_matching|].
  split; [|apply removeAddressTypes_length].
  induction cmd as [|a cmd IH]; [reflexivity|].
  cbn [removeAddressTypes List.filter].
  destruct (strings.Contains a kubeletPreferredAddressTypes) eqn:Ha;
    cbn [negb fst]; [reflexivity|].
  destruct (removeAddressTypes cmd u) as [r v]. cbn [fst] in *.
  cbn [List.filter]. rewrite Ha. cbn [negb]. now rewrite IH.
Qed.

Lemma disableNodeLifecycle_length (cmd : list string) (u : bool) :
  length (fst (disableNodeLifecycle cmd u)) = length cmd.
Proof.
  induction cmd as [|a cmd IH]; [reflexivity|].
  rewrite disableNodeLifecycle_step.
  destruct (patchable a); cbn [fst length]; [reflexivity|now rewrite IH].
Qed.

Lemma disableNodeLifecycle_patchableCount (cmd : list string) (u : bool) :
  patchableCount (fst (disableNodeLifecycle cmd u))
  = Nat.pred (patchableCount cmd).
Proof.
  unfold patchableCount. induction cmd as [|a cmd IH]; [reflexivity|].
  rewrite disableNodeLifecycle_step. cbn [List.filter].
  destruct (patchable a) eqn:Ha; cbn [fst List.filter].
  - now rewrite patchable_insertNodelifecycle.
  - now rewrite Ha.
Qed.

(** X2. One scan of a kube-controller-manager command rewrites the first
    argument that has [--controllers=] without the token and nothing else:
    the length is kept, the number of such arguments drops by one (or
    stays zero), every other argument stays at its index, and an argument
    that did change is the original with the token inserted. *)
Theorem disableNodeLifecycle_rewrites_first_only (cmd : list string) (u : bool) :
  length (fst (disableNodeLifecycle cmd u)) = length cmd
  /\ patchableCount (fst (disableNodeLifecycle cmd u))
     = Nat.pred (patchableCount cmd)
  /\ (forall i a, cmd !! i = Some a -> patchable a = false ->
        fst (disableNodeLifecycle cmd u) !! i = Some a)
  /\ (forall i a b, cmd !! i = Some a ->
        fst (disableNodeLifecycle cmd u) !! i = Some b ->
        b = a \/ (patchable a = true /\ b = insertNodelifecycle a)).
Proof.
  split; [apply disableNodeLifecycle_length|].
  split; [apply disableNodeLifecycle_patchableCount|].
  induction cmd as [|a cmd (IHk & IHr)].
  - split; intros i ?; destruct i; discriminate.
  - rewrite disableNodeLifecycle_step.
    destruct (patchable a) eqn:Ha; cbn [fst]; split.
    + intros [|i] b Hb Hp; cbn in *; [congruence|assumption].
    + intros [|i] b c Hb Hc; cbn in *;
        [right; split; congruence|left; congruence].
    + intros [|i] b Hb Hp; cbn in *; [assumption|now apply IHk].
    + intros [|i] b c Hb Hc; cbn in *; [left; congruence|].
      now apply IHr with i.
Qed.

Lemma map_fixed {A} (f : A -> A) (l : list A) :
  map f l = l -> Forall (fun x => f x = x) l.
Proof.
  induction l as [|x l IH]; [constructor|].
  cbn. intros [= Hx Hl]. constructor; auto.
Qed.

Lemma existsb_patchable_split (cmd : list string) :
  existsb patchable cmd = true ->
  exists pre a post,
    cmd = pre ++ a :: post
    /\ Forall (fun b => patchable b = false) pre
    /\ patchable a = true.
Proof.
  induction cmd as [|b cmd IH]; [discriminate|]. cbn [existsb].
  destruct (patchable b) eqn:Hb.
  - intros _. now exists [], b, cmd.
  - cbn [orb]. intros Hc. destruct (IH Hc) as (pre & a & post & -> & Hpre & Ha).
    exists (b :: pre), a, post. repeat split; [now constructor|assumption].
Qed.

Lemma insertNodelifecycle_changes (a : string) :
  patchable a = true -> insertNodelifecycle a <> a.
Proof.
  intros Ha Heq. pose proof (patchable_insertNodelifecycle a) as Hp.
  rewrite Heq in Hp. congruence.
Qed.

(** X3. The kube-apiserver flag is accurate: it is unset after the patch
    exactly when the patch returned the pod it was given. *)
Theorem patchKAS_flag_iff_changed (p : Pod) :
  snd (patchKAS p) = false <-> fst (patchKAS p) = p.
Proof.
  split; [apply patchKAS_unchanged|]. intros Heq.
  rewrite patchKAS_eq, setDNSPolicy_flag. cbn [DNSPolicy Spec set_Containers].
  apply orb_false_iff. split.
  - assert (Hc : map kasContainerPatch (Containers (Spec p))
                 = Containers (Spec p)).
    { rewrite <- patchKAS_Containers. now rewrite Heq. }
    apply map_fixed in Hc. apply existsb_false_Forall.
    eapply Forall_impl; [exact Hc|]. intros c Hfix. cbn.
    apply negb_false_iff, Nat.eqb_eq.
    assert (Hcmd : fst (removeAddressTypes (Command c) false) = Command c).
    { unfold kasContainerPatch in Hfix. now rewrite <- Hfix at 2. }
    pose proof (removeAddressTypes_length (Command c) false) as Hl.
    rewrite Hcmd in Hl.
    pose proof (matching_le_length kubeletPreferredAddressTypes (Command c)).
    destruct (Nat.eqb_spec
                (matching kubeletPreferredAddressTypes (Command c)) 0); lia.
  - apply negb_false_iff, String.eqb_eq. rewrite <- Heq at 1.
    rewrite patchKAS_eq. apply setDNSPolicy_DNSPolicy.
Qed.

(** X4. The kube-controller-manager flag is accurate in the same way. *)
Theorem patchKCM_flag_iff_changed (p : Pod) :
  snd (patchKCM p) = false <-> fst (patchKCM p) = p.
Proof.
  split; [apply patchKCM_unchanged|]. intros Heq.
  rewrite patchKCM_eq. cbn [snd].
  assert (Hc : map kcmContainerPatch (Containers (Spec p))
               = Containers (Spec p)).
  { rewrite <- patchKCM_Containers. now rewrite Heq. }
  apply map_fixed in Hc. apply existsb_false_Forall.
  eapply Forall_impl; [exact Hc|]. intros c Hfix. cbn.
  assert (Hcmd : fst (disableNodeLifecycle (Command c) false) = Command c).
  { unfold kcmContainerPatch in Hfix. now rewrite <- Hfix at 2. }
  destruct (existsb patchable (Command c)) eqn:He; [|reflexivity].
  destruct (existsb_patchable_split _ He) as (pre & a & post & Hsplit & Hpre & Ha).
  rewrite Hsplit, (disableNodeLifecycle_first _ _ _ _ Hpre Ha) in Hcmd.
  cbn [fst] in Hcmd. apply app_inv_head in Hcmd. injection Hcmd as Hins.
  now apply insertNodelifecycle_changes in Ha.
Qed.

(** X5. When the kube-apiserver flag is set: the DNS policy was not
    [ClusterFirstWithHostNet], or some argument of some container contains
    [kubelet-preferred-address-types=]. *)
Theorem patchKAS_flag_cause (p : Pod) :
  snd (patchKAS p) = true
  <-> (DNSPolicy (Spec p) <> DNSClusterFirstWithHostNet
       \/ exists c a, In c (Containers (Spec p)) /\ In a (Command c)
            /\ strings.Contains a kubeletPreferredAddressTypes = true).
Proof.
  rewrite patchKAS_eq, setDNSPolicy_flag. cbn [DNSPolicy Spec set_Containers].
  rewrite orb_true_iff, existsb_exists, negb_true_iff, String.eqb_neq.
  split.
  - intros [(c & Hc & Hm)|Hd]; [right|now left].
    apply negb_true_iff, matching_pos_iff in Hm.
    destruct Hm as (a & Ha & Hm). eauto.
  - intros [Hd|(c & a & Hc & Ha & Hm)]; [now right|left].
    exists c. split; [assumption|].
    apply negb_true_iff, matching_pos_iff. eauto.
Qed.

(** X6. When the kube-controller-manager flag is set: some argument of some
    container contains [--controllers=] and does not contain
    [-nodelifecycle,]. *)
Theorem patchKCM_flag_cause (p : Pod) :
  snd (patchKCM p) = true
  <-> exists c a, In c (Containers (Spec p)) /\ In a (Command c)
        /\ strings.Contains a controllersFlag = true
        /\ strings.Contains a nodelifecycleToken = false.
Proof.
  rewrite patchKCM_eq. cbn [snd]. rewrite existsb_exists. split.
  - intros (c & Hc & (a & Ha & Hp)%existsb_exists).
    unfold patchable in Hp. apply andb_true_iff in Hp as [H1 H2].
    apply negb_true_iff in H2. eauto 6.
  - intros (c & a & Hc & Ha & H1 & H2). exists c. split; [assumption|].
    apply existsb_exists. exists a. split; [assumption|].
    unfold patchable. now rewrite H1, H2.
Qed.

(** X7. The kube-apiserver patch touches nothing but commands and DNS policy:
    pod name, host-network setting and the number of containers are kept,
    and each container keeps its name, image and args, with a command that
    is a sublist of the one it had. *)
Theorem patchKAS_frame (p : Pod) :
  PodName (fst (patchKAS p)) = PodName p
  /\ HostNetwork (Spec (fst (patchKAS p))) = HostNetwork (Spec p)
  /\ length (Containers (Spec (fst (patchKAS p))))
     = length (Containers (Spec p))
  /\ forall i c, Containers (Spec p) !! i = Some c ->
       exists c', Containers (Spec (fst (patchKAS p))) !! i = Some c'
         /\ Name c' = Name c /\ Image c' = Image c /\ Args c' = Args c
         /\ sublist (Command c') (Command c).
Proof.
  rewrite patchKAS_Containers. repeat split.
  - rewrite patchKAS_eq. unfold setDNSPolicy. now destruct (negb _).
  - rewrite patchKAS_eq. unfold setDNSPolicy. now destruct (negb _).
  - apply length_map.
  - intros i c Hi. exists (kasContainerPatch c).
    rewrite lookup_map, Hi. repeat split. cbn [kasContainerPatch set_Command Command].
    generalize (Command c). intros cmd.
    induction cmd as [|a cmd IH]; [constructor|]. cbn [removeAddressTypes].
    destruct (strings.Contains a _); cbn [fst].
    + now apply sublist_cons.
    + destruct (removeAddressTypes cmd false) as [r v]. cbn [fst] in *.
      now apply sublist_skip.
Qed.

(** X8. The kube-controller-manager patch touches nothing but commands: pod
    name, DNS policy, host-network setting and the number of containers
    are kept, and each container keeps its name, image, args and the
    length of its command. *)
Theorem patchKCM_frame (p : Pod) :
  PodName (fst (patchKCM p)) = PodName p
  /\ DNSPolicy (Spec (fst (patchKCM p))) = DNSPolicy (Spec p)
  /\ HostNetwork (Spec (fst (patchKCM p))) = HostNetwork (Spec p)
  /\ length (Containers (Spec (fst (patchKCM p))))
     = length (Containers (Spec p))
  /\ forall i c, Containers (Spec p) !! i = Some c ->
       exists c', Containers (Spec (fst (patchKCM p))) !! i = Some c'
         /\ Name c' = Name c /\ Image c' = Image c /\ Args c' = Args c
         /\ length (Command c') = length (Command c).
Proof.
  rewrite patchKCM_eq. cbn [fst]. repeat split.
  - cbn. apply length_map.
  - intros i c Hi. exists (kcmContainerPatch c).
    cbn [Containers Spec set_Containers]. rewrite lookup_map, Hi.
    repeat split. cbn [kcmContainerPatch set_Command Command].
    apply disableNodeLifecycle_length.
Qed.

(** ** Where the token goes *)

Lemma prefix_decompose (sub s : string) :
  String.prefix sub s = true -> exists q, s = sub +:+ q.
Proof.
  revert s; induction sub as [|c sub IH]; intros s.
  - intros _. now exists s.
  - destruct s as [|d s]; [discriminate|]. cbn [String.prefix].
    destruct (ascii_dec c d) as [<-|]; [|discriminate].
    intros Hp. destruct (IH _ Hp) as [q ->]. now exists q.
Qed.

Lemma Contains_decompose (s sub : string) :
  strings.Contains s sub = true -> exists p q, s = p +:+ sub +:+ q.
Proof.
  induction s as [|c s IH].
  - unfold strings.Contains. cbn [strings.Index].
    destruct (String.prefix sub "") eqn:Hp; [|discriminate].
    intros _. destruct (prefix_decompose _ _ Hp) as [q Hq]. now exists "", q.
  - rewrite Contains_cons. intros [Hp|Hc]%orb_true_iff.
    + destruct (prefix_decompose _ _ Hp) as [q Hq]. now exists "", q.
    + destruct (IH Hc) as (p & q & ->). now exists (String c p), q.
Qed.

Lemma first_eq_split (s : string) :
  strings.Contains s "=" = true ->
  exists x y, s = x +:+ "=" +:+ y /\ strings.Contains x "=" = false.
Proof.
  induction s as [|c s IH]; [discriminate|].
  rewrite Contains_cons. destruct (String.prefix "=" (String c s)) eqn:Hp.
  - intros _. destruct (prefix_decompose _ _ Hp) as [q Hq].
    now exists "", q.
  - cbn [orb]. intros Hc. destruct (IH Hc) as (x & y & -> & Hx).
    exists (String c x), y. split; [reflexivity|].
    rewrite Contains_cons, Hx, (prefix_one _ _ _ (x +:+ "=" +:+ y)), Hp.
    reflexivity.
Qed.

Lemma Contains_app_char (ch : ascii) (p r : string) :
  strings.Contains p (String ch "") = false ->
  strings.Contains r (String ch "") = false ->
  strings.Contains (p +:+ r) (String ch "") = false.
Proof.
  intros Hp Hr. induction p as [|c p IH]; [assumption|].
  rewrite append_String, Contains_cons.
  rewrite Contains_cons in Hp. apply orb_false_elim in Hp as [Hc Hp].
  now rewrite (prefix_one _ _ _ p), Hc, IH.
Qed.

(** X9. Lines 120-121 on any argument the loop rewrites: the argument splits
    at its first [=], the token goes right after that [=] and nothing else
    changes; the slice bound is within the argument, so the slices do not
    panic. *)
Theorem insertNodelifecycle_after_first_eq (arg : string) :
  strings.Contains arg controllersFlag = true ->
  exists x y,
    arg = x +:+ "=" +:+ y
    /\ strings.Contains x "=" = false
    /\ insertNodelifecycle arg = x +:+ "=" +:+ nodelifecycleToken +:+ y
    /\ 1 <= strings.Index arg "=" + 1 <= Z.of_nat (String.length arg).
Proof.
  intros Hc. pose proof (insertPoint_in_range arg Hc) as Hr.
  assert (He : strings.Contains arg "=" = true).
  { now apply (Contains_suffix arg "--controllers" "="). }
  destruct (first_eq_split arg He) as (x & y & -> & Hx).
  exists x, y. repeat split; try assumption; try apply Hr.
  now apply insertNodelifecycle_first_eq.
Qed.

(** X10. A rewritten argument still contains [--controllers=], now contains
    [-nodelifecycle,], and is longer by the fifteen characters of the
    token: the next scan recognises it and passes over it. *)
Theorem insertNodelifecycle_keeps_flag (arg : string) :
  strings.Contains arg controllersFlag = true ->
  strings.Contains (insertNodelifecycle arg) controllersFlag = true
  /\ strings.Contains (insertNodelifecycle arg) nodelifecycleToken = true
  /\ String.length (insertNodelifecycle arg) = (String.length arg + 15)%nat.
Proof.
  intros Hc. split; [|split; [apply Contains_insertNodelifecycle|]].
  - destruct (Contains_decompose _ _ Hc) as (p & q & ->).
    destruct (strings.Contains p "=") eqn:Hp.
    + destruct (first_eq_split p Hp) as (x & p' & -> & Hx).
      rewrite !append_assoc.
      rewrite (insertNodelifecycle_first_eq x _ Hx).
      do 3 apply Contains_app_r. apply Contains_inserted.
    + assert (Hx : strings.Contains (p +:+ "--controllers") "=" = false).
      { now apply Contains_app_char. }
      assert (E : p +:+ controllersFlag +:+ q
                  = (p +:+ "--controllers") +:+ "=" +:+ q).
      { change controllersFlag with ("--controllers" +:+ "=").
        now rewrite !append_assoc. }
      rewrite E, (insertNodelifecycle_first_eq _ q Hx).
      assert (E' : (p +:+ "--controllers") +:+ "=" +:+ nodelifecycleToken +:+ q
                   = p +:+ controllersFlag +:+ nodelifecycleToken +:+ q).
      { change controllersFlag with ("--controllers" +:+ "=").
        now rewrite !append_assoc. }
      rewrite E'. apply Contains_inserted.
  - assert (He : strings.Contains arg "=" = true).
    { now apply (Contains_suffix arg "--controllers" "="). }
    destruct (first_eq_split arg He) as (x & y & -> & Hx).
    rewrite (insertNodelifecycle_first_eq x y Hx).
    rewrite !length_append. cbn. lia.
Qed.

(** ** Repeated runs *)

Lemma patchKAS_fixed (p : Pod) :
  DNSPolicy (Spec p) = DNSClusterFirstWithHostNet ->
  Forall (fun c => matching kubeletPreferredAddressTypes (Command c) = 0%nat)
    (Containers (Spec p)) ->
  patchKAS p = (p, false).
Proof.
  intros Hd Hc. rewrite patchKAS_eq, map_id_on.
  2:{ eapply Forall_impl; [exact Hc|]. intros c. apply kasContainerPatch_none. }
  rewrite set_Containers_same, setDNSPolicy_settled by exact Hd.
  f_equal. apply existsb_false_Forall.
  eapply Forall_impl; [exact Hc|]. intros c Hm. cbn in *. now rewrite Hm.
Qed.

Lemma patchKCM_fixed (p : Pod) :
  Forall (fun c => patchableCount (Command c) = 0%nat) (Containers (Spec p)) ->
  patchKCM p = (p, false).
Proof.
  intros Hc.
  assert (Hc' : Forall (fun c => existsb patchable (Command c) = false)
                  (Containers (Spec p))).
  { eapply Forall_impl; [exact Hc|]. intros c H0. cbn in H0.
    destruct (existsb patchable (Command c)) eqn:He; [|reflexivity].
    destruct (existsb_patchable_split _ He) as (pre & a & post & Hs & _ & Ha).
    unfold patchableCount in H0. rewrite Hs, List.filter_app in H0.
    cbn [List.filter] in H0. rewrite Ha, length_app in H0. cbn in H0. lia. }
  rewrite patchKCM_eq, map_id_on.
  2:{ eapply Forall_impl; [exact Hc'|]. intros c. apply kcmContainerPatch_none. }
  rewrite set_Containers_same. f_equal. now apply existsb_false_Forall.
Qed.

Lemma applyKAS_matching (n m : nat) (p : Pod) :
  Forall (fun c => (matching kubeletPreferredAddressTypes (Command c) <= m)%nat)
    (Containers (Spec p)) ->
  Forall (fun c =>
    (matching kubeletPreferredAddressTypes (Command c) <= m - n)%nat)
    (Containers (Spec (applyKAS n p))).
Proof.
  intros Hm. induction n as [|n IH].
  - cbn. eapply Forall_impl; [exact Hm|]. intros c Hc. cbn in *. lia.
  - change (applyKAS (S n) p) with (fst (patchKAS (applyKAS n p))).
    rewrite patchKAS_Containers. apply Forall_map.
    eapply Forall_impl; [exact IH|]. intros c Hc. cbn beta in *.
    unfold kasContainerPatch. cbn [Command set_Command].
    rewrite removeAddressTypes_matching. lia.
Qed.

Lemma applyKCM_patchable (n m : nat) (p : Pod) :
  Forall (fun c => (patchableCount (Command c) <= m)%nat)
    (Containers (Spec p)) ->
  Forall (fun c => (patchableCount (Command c) <= m - n)%nat)
    (Containers (Spec (applyKCM n p))).
Proof.
  intros Hm. induction n as [|n IH].
  - cbn. eapply Forall_impl; [exact Hm|]. intros c Hc. cbn in *. lia.
  - change (applyKCM (S n) p) with (fst (patchKCM (applyKCM n p))).
    rewrite patchKCM_Containers. apply Forall_map.
    eapply Forall_impl; [exact IH|]. intros c Hc. cbn beta in *.
    unfold kcmContainerPatch. cbn [Command set_Command].
    rewrite disableNodeLifecycle_patchableCount. lia.
Qed.

(** X11. Without the at-most-one invariant the kube-apiserver patch still
    settles: when no container has more than [n] matching arguments, the
    pod after [n] patches ([n] at least one) is one the patch returns as it
    is, with the flag unset. *)
Theorem applyKAS_settles (n : nat) (p : Pod) :
  (1 <= n)%nat ->
  Forall (fun c => (matching kubeletPreferredAddressTypes (Command c) <= n)%nat)
    (Containers (Spec p)) ->
  patchKAS (applyKAS n p) = (applyKAS n p, false).
Proof.
  intros Hn Hm. apply patchKAS_fixed.
  - destruct n as [|n]; [lia|].
    change (applyKAS (S n) p) with (fst (patchKAS (applyKAS n p))).
    rewrite patchKAS_eq. apply setDNSPolicy_DNSPolicy.
  - pose proof (applyKAS_matching n n p Hm) as H0.
    eapply Forall_impl; [exact H0|]. intros c Hc. cbn in *. lia.
Qed.

(** X12. The same for the kube-controller-manager patch: when no container has
    more than [n] arguments with [--controllers=] and without the token,
    the pod after [n] patches is a fixed point with the flag unset. *)
Theorem applyKCM_settles (n : nat) (p : Pod) :
  Forall (fun c => (patchableCount (Command c) <= n)%nat)
    (Containers (Spec p)) ->
  patchKCM (applyKCM n p) = (applyKCM n p, false).
Proof.
  intros Hm. apply patchKCM_fixed.
  pose proof (applyKCM_patchable n n p Hm) as H0.
  eapply Forall_impl; [exact H0|]. intros c Hc. cbn in *. lia.
Qed.

(** ** Further properties of the runner *)

Section DoFacts.
Context {W : Type} {FU : FileUtil W}.

(** X13. Lines 75-78: when the load of the kube-apiserver manifest fails, [Do]
    returns the accessor's error as it is, after that one call; nothing
    else is loaded or written. *)
Theorem Do_kas_load_error (spr : staticPodRunner) (s : State W) (e : error) :
  ReadObjectFromYamlFile (kasStaticPodPath spr) (world s) = Err e ->
  Do spr s
  = (Err e,
     {| world := world s;
        trace := trace s ++ [EvRead (kasStaticPodPath spr)] |}).
Proof.
  intros Hkas. unfold Do, bind, readObject, log. cbn [world trace].
  now rewrite Hkas.
Qed.

(** X14. Lines 104-112: when the kube-apiserver manifest loads as a pod but the
    kube-controller-manager manifest fails to load, or loads as something
    that is not a pod, [Do] returns the error after the two loads and
    writes nothing: the patch of the kube-apiserver pod, already made in
    memory, never reaches the disk. *)
Theorem Do_kcm_load_failure_writes_nothing (spr : staticPodRunner)
    (s : State W) (kasPod : Pod) :
  ReadObjectFromYamlFile (kasStaticPodPath spr) (world s)
    = Ok (PodObject kasPod) ->
  let s' := {| world := world s;
               trace := trace s ++ [EvRead (kasStaticPodPath spr);
                                    EvRead (kcmStaticPodPath spr)] |} in
  (forall e,
     ReadObjectFromYamlFile (kcmStaticPodPath spr) (world s) = Err e ->
     Do spr s = (Err e, s'))
  /\ (forall kind,
        ReadObjectFromYamlFile (kcmStaticPodPath spr) (world s)
          = Ok (OtherObject kind) ->
        Do spr s
        = (Err ("manifest file(" +:+ kcmStaticPodPath spr
                +:+ ") is not a static pod"), s')).
Proof.
  intros Hkas s'. unfold s', Do, bind, readObject, log. cbn [world trace].
  rewrite Hkas. destruct (patchKAS kasPod) as [kp ku]. cbn [world trace].
  split; intros x Hkcm; rewrite Hkcm; unfold fail; now rewrite <- app_assoc.
Qed.

(** X15. On manifests that are already patched (DNS policy set, no
    [kubelet-preferred-address-types=] argument, no [--controllers=]
    argument without the token) [Do] returns [nil] after its two loads and
    makes no save call, whatever the accessor would do on a save. *)
Theorem Do_noop_when_patched (spr : staticPodRunner) (s : State W)
    (kasPod kcmPod : Pod) :
  ReadObjectFromYamlFile (kasStaticPodPath spr) (world s)
    = Ok (PodObject kasPod) ->
  ReadObjectFromYamlFile (kcmStaticPodPath spr) (world s)
    = Ok (PodObject kcmPod) ->
  DNSPolicy (Spec kasPod) = DNSClusterFirstWithHostNet ->
  Forall (fun c => matching kubeletPreferredAddressTypes (Command c) = 0%nat)
    (Containers (Spec kasPod)) ->
  Forall (fun c => patchableCount (Command c) = 0%nat)
    (Containers (Spec kcmPod)) ->
  Do spr s
  = (Ok tt,
     {| world := world s;
        trace := trace s ++ [EvRead (kasStaticPodPath spr);
                             EvRead (kcmStaticPodPath spr)] |}).
Proof.
  intros Hkas Hkcm Hd Hm Hp. rewrite (Do_loaded _ _ _ _ Hkas Hkcm).
  now rewrite (patchKAS_fixed _ Hd Hm), (patchKCM_fixed _ Hp).
Qed.

(** X16. What [Do] never does: in every run, on every file system, it makes
    between one and four accessor calls, the first one the load of the
    kube-apiserver manifest; each call is a load of one of its two paths or
    a save of a pod to one of them (never an existence probe); and a run
    without a save call leaves the file system as it was. *)
Theorem Do_events (spr : staticPodRunner) (s : State W) :
  exists evs,
    trace (snd (Do spr s)) = trace s ++ evs
    /\ head evs = Some (EvRead (kasStaticPodPath spr))
    /\ (length evs <= 4)%nat
    /\ forallb (doEvent spr) evs = true
    /\ (existsb is_write evs = false -> world (snd (Do spr s)) = world s).
Proof.
  assert (Hk : doEvent spr (EvRead (kasStaticPodPath spr)) = true).
  { cbn. now rewrite String.eqb_refl. }
  assert (Hc : doEvent spr (EvRead (kcmStaticPodPath spr)) = true).
  { cbn. rewrite String.eqb_refl. apply orb_true_r. }
  assert (Hwk : forall p, doEvent spr (EvWrite (PodObject p)
                                         (kasStaticPodPath spr)) = true).
  { intros p. cbn. now rewrite String.eqb_refl. }
  assert (Hwc : forall p, doEvent spr (EvWrite (PodObject p)
                                         (kcmStaticPodPath spr)) = true).
  { intros p. cbn. rewrite String.eqb_refl. apply orb_true_r. }
  unfold Do, writeBack, bind, readObject, writeObject, log, fail, ret.
  cbn [world trace].
  destruct (ReadObjectFromYamlFile (kasStaticPodPath spr) (world s))
    as [[kasPod|kind]|e]; cbn [world trace snd].
  2,3: eexists; split; [reflexivity|]; cbn [head length forallb];
       rewrite Hk; repeat split; lia.
  destruct (patchKAS kasPod) as [kp ku]. cbn [world trace].
  destruct (ReadObjectFromYamlFile (kcmStaticPodPath spr) (world s))
    as [[kcmPod|kind]|e]; cbn [world trace snd].
  2,3: eexists; split; [rewrite <- app_assoc; reflexivity|];
       cbn [app head length forallb]; rewrite Hk, Hc; repeat split; lia.
  destruct (patchKCM kcmPod) as [cp cu].
  destruct ku, cu; cbn [world trace];
    repeat match goal with
           | |- context [WriteObjectToYamlFile ?o ?p ?w] =>
               destruct (WriteObjectToYamlFile o p w) as [[?|] ?];
               cbn [world trace snd]
           end;
    (eexists; split; [rewrite <- ?app_assoc; reflexivity|]);
    cbn [app head length forallb existsb is_write orb];
    rewrite ?Hk, ?Hc, ?Hwk, ?Hwc; repeat split; try lia; discriminate.
Qed.

End DoFacts.

Section DoLawsFacts.
Context {W : Type} {FU : FileUtil W} {FL : FileUtilLaws W}.

(** X17. Lines 129-140, no rollback: when both flags are set, the
    kube-apiserver manifest is saved and the save of the
    kube-controller-manager manifest then fails, [Do] returns that error
    after both save calls, and the kube-apiserver file keeps the patched
    pod. *)
Theorem Do_kcm_write_failure_keeps_kas (spr : staticPodRunner) (s : State W)
    (kasPod kcmPod : Pod) (e : error) (w1 w2 : W) :
  kasStaticPodPath spr <> kcmStaticPodPath spr ->
  ReadObjectFromYamlFile (kasStaticPodPath spr) (world s)
    = Ok (PodObject kasPod) ->
  ReadObjectFromYamlFile (kcmStaticPodPath spr) (world s)
    = Ok (PodObject kcmPod) ->
  snd (patchKAS kasPod) = true ->
  snd (patchKCM kcmPod) = true ->
  WriteObjectToYamlFile (PodObject (fst (patchKAS kasPod)))
    (kasStaticPodPath spr) (world s) = (None, w1) ->
  WriteObjectToYamlFile (PodObject (fst (patchKCM kcmPod)))
    (kcmStaticPodPath spr) w1 = (Some e, w2) ->
  Do spr s
  = (Err e,
     {| world := w2;
        trace := trace s ++ [EvRead (kasStaticPodPath spr);
                             EvRead (kcmStaticPodPath spr);
                             EvWrite (PodObject (fst (patchKAS kasPod)))
                               (kasStaticPodPath spr);
                             EvWrite (PodObject (fst (patchKCM kcmPod)))
                               (kcmStaticPodPath spr)] |})
  /\ ReadObjectFromYamlFile (kasStaticPodPath spr) w2
     = Ok (PodObject (fst (patchKAS kasPod))).
Proof.
  intros Hne Hkas Hkcm Hku Hcu Hw1 Hw2. split.
  - rewrite (Do_loaded _ _ _ _ Hkas Hkcm), Hku, Hcu.
    unfold writeBack, bind, writeObject. cbn [world trace].
    rewrite Hw1. cbn [world trace]. rewrite Hw2.
    now rewrite <- !app_assoc.
  - rewrite (read_write_other _ _ _ _ _ _ Hw2) by congruence.
    now apply read_after_write with (w := world s).
Qed.

(** X18. After a run of [Do] that returns [nil], with or without the
    at-most-one invariant: the accessor calls were the two loads, then a
    save of the kube-apiserver pod if its flag was set, then a save of the
    kube-controller-manager pod if its flag was set; and each file loads
    as the patched pod. *)
Theorem Do_success_contents (spr : staticPodRunner) (s s1 : State W)
    (kasPod kcmPod : Pod) :
  kasStaticPodPath spr <> kcmStaticPodPath spr ->
  ReadObjectFromYamlFile (kasStaticPodPath spr) (world s)
    = Ok (PodObject kasPod) ->
  ReadObjectFromYamlFile (kcmStaticPodPath spr) (world s)
    = Ok (PodObject kcmPod) ->
  Do spr s = (Ok tt, s1) ->
  trace s1
  = trace s ++ [EvRead (kasStaticPodPath spr); EvRead (kcmStaticPodPath spr)]
      ++ (if snd (patchKAS kasPod)
          then [EvWrite (PodObject (fst (patchKAS kasPod)))
                  (kasStaticPodPath spr)]
          else [])
      ++ (if snd (patchKCM kcmPod)
          then [EvWrite (PodObject (fst (patchKCM kcmPod)))
                  (kcmStaticPodPath spr)]
          else [])
  /\ ReadObjectFromYamlFile (kasStaticPodPath spr) (world s1)
     = Ok (PodObject (fst (patchKAS kasPod)))
  /\ ReadObjectFromYamlFile (kcmStaticPodPath spr) (world s1)
     = Ok (PodObject (fst (patchKCM kcmPod))).
Proof.
  intros Hne Hkas Hkcm Hdo. rewrite (Do_loaded _ _ _ _ Hkas Hkcm) in Hdo.
  split.
  - revert Hdo. unfold writeBack, bind, writeObject, ret.
    destruct (snd (patchKAS kasPod)), (snd (patchKCM kcmPod));
      cbn [world trace];
      repeat match goal with
             | |- context [WriteObjectToYamlFile ?o ?p ?w] =>
                 destruct (WriteObjectToYamlFile o p w) as [[?|] ?];
                 cbn [world trace]; try discriminate
             end;
      intros [= <-]; cbn [trace]; now rewrite <- ?app_assoc.
  - apply writeBack_ok in Hdo as [Hr1 Hr2]; [|assumption].
    cbn [world] in Hr1, Hr2. split.
    + rewrite Hr1. destruct (snd (patchKAS kasPod)) eqn:Hu; [reflexivity|].
      now rewrite (patchKAS_unchanged _ Hu).
    + rewrite Hr2. destruct (snd (patchKCM kcmPod)) eqn:Hu; [reflexivity|].
      now rewrite (patchKCM_unchanged _ Hu).
Qed.

End DoLawsFacts.

Section FactoryFacts.
Context {W : Type} {FU : FileUtil W} {FP : Filepath}.

(** X19. Lines 57-59: when the probe does not find [kube-apiserver.yaml], the
    factory fails with the error naming that path after this one probe;
    [kube-controller-manager.yaml] is not probed, whether it exists or
    not. *)
Theorem NewControlPlaneRunner_kas_missing (o : ControlPlaneOptions)
    (s : State W) :
  let kasPath := filepath_Join (PodManifestsPath o) "kube-apiserver.yaml" in
  RunMode o = "pod" ->
  fst (FileExists kasPath (world s)) = false ->
  NewControlPlaneRunner o s
  = (Err (kasPath +:+ " file is not exist"),
     {| world := world s; trace := trace s ++ [EvFileExists kasPath] |}).
Proof.
  intros kasPath Hmode Hkas. unfold NewControlPlaneRunner.
  rewrite Hmode. cbn [String.eqb Ascii.eqb Bool.eqb].
  rewrite newStaticPodRunner_eq. fold kasPath. now rewrite Hkas.
Qed.

(** X20. Lines 40-69, the success path: in mode [pod], when the probe finds
    both files, the factory returns a runner bound to the two joined
    paths, after the two probes and with the file system as it was. *)
Theorem NewControlPlaneRunner_success (o : ControlPlaneOptions) (s : State W) :
  let kasPath := filepath_Join (PodManifestsPath o) "kube-apiserver.yaml" in
  let kcmPath :=
    filepath_Join (PodManifestsPath o) "kube-controller-manager.yaml" in
  RunMode o = "pod" ->
  fst (FileExists kasPath (world s)) = true ->
  fst (FileExists kcmPath (world s)) = true ->
  NewControlPlaneRunner o s
  = (Ok {| kasStaticPodPath := kasPath; kcmStaticPodPath := kcmPath |},
     {| world := world s;
        trace := trace s ++ [EvFileExists kasPath; EvFileExists kcmPath] |}).
Proof.
  intros kasPath kcmPath Hmode Hkas Hkcm. unfold NewControlPlaneRunner.
  rewrite Hmode. cbn [String.eqb Ascii.eqb Bool.eqb].
  rewrite newStaticPodRunner_eq. fold kasPath kcmPath.
  now rewrite Hkas, Hkcm.
Qed.

(** X21. What the factory never does: for every mode and every file system it
    makes at most two accessor calls, all of them existence probes, leaves
    the file system as it was, and returns a runner only in mode [pod]. *)
Theorem NewControlPlaneRunner_only_probes (o : ControlPlaneOptions)
    (s : State W) :
  world (snd (NewControlPlaneRunner o s)) = world s
  /\ (exists evs,
        trace (snd (NewControlPlaneRunner o s)) = trace s ++ evs
        /\ (length evs <= 2)%nat
        /\ forallb is_probe evs = true)
  /\ (forall spr, fst (NewControlPlaneRunner o s) = Ok spr ->
        RunMode o = "pod").
Proof.
  unfold NewControlPlaneRunner.
  destruct (String.eqb_spec (RunMode o) "pod") as [Hmode|Hmode].
  - rewrite newStaticPodRunner_eq.
    destruct (negb (fst (FileExists _ (world s)))); cbn [snd world trace].
    + repeat split; [|auto].
      exists [EvFileExists
                (filepath_Join (PodManifestsPath o) "kube-apiserver.yaml")].
      repeat split. cbn. lia.
    + destruct (negb (fst (FileExists _ (world s)))); cbn [snd world trace];
        (repeat split; [|auto]); eexists; (split; [reflexivity|]);
        repeat split; cbn; lia.
  - unfold fail. cbn [snd fst]. repeat split; [|discriminate].
    exists []. rewrite app_nil_r. repeat split. cbn. lia.
Qed.

End FactoryFacts.

(** ** The further properties on the sample manifests *)

Lemma removeAddressTypes_removes_first_only_witness :
  removeAddressTypes
    ["kube-apiserver"; "--kubelet-preferred-address-types=Hostname";
     "--secure-port=6443"; "--kubelet-preferred-address-types=InternalIP"]
    false
  = (["kube-apiserver"; "--secure-port=6443";
      "--kubelet-preferred-address-types=InternalIP"], true).
Proof.
  apply (proj1 (removeAddressTypes_removes_first_only
                  ["kube-apiserver";
                   "--kubelet-preferred-address-types=Hostname";
                   "--secure-port=6443";
                   "--kubelet-preferred-address-types=InternalIP"] false)
           ["kube-apiserver"]
           "--kubelet-preferred-address-types=Hostname"
           ["--secure-port=6443";
            "--kubelet-preferred-address-types=InternalIP"]);
    reflexivity.
Defined.

Lemma disableNodeLifecycle_rewrites_first_only_witness :
  fst (disableNodeLifecycle
         ["kube-controller-manager"; "--controllers=foo"; controllersArg]
         false) !! 0%nat
  = Some "kube-controller-manager".
Proof.
  apply (proj1 (proj2 (proj2 (disableNodeLifecycle_rewrites_first_only
           ["kube-controller-manager"; "--controllers=foo"; controllersArg]
           false))) 0%nat "kube-controller-manager" eq_refl eq_refl).
Defined.

Lemma patchKAS_flag_iff_changed_witness :
  fst (patchKAS (fst (patchKAS kasPod0))) = fst (patchKAS kasPod0).
Proof.
  apply (proj1 (patchKAS_flag_iff_changed (fst (patchKAS kasPod0)))).
  reflexivity.
Defined.

Lemma patchKCM_flag_iff_changed_witness :
  fst (patchKCM (fst (patchKCM kcmPod0))) = fst (patchKCM kcmPod0).
Proof.
  apply (proj1 (patchKCM_flag_iff_changed (fst (patchKCM kcmPod0)))).
  reflexivity.
Defined.

Lemma patchKAS_flag_cause_witness : snd (patchKAS kasPod0) = true.
Proof.
  apply (proj2 (patchKAS_flag_cause kasPod0)). left. discriminate.
Defined.

Lemma patchKCM_flag_cause_witness : snd (patchKCM kcmPod0) = true.
Proof.
  apply (proj2 (patchKCM_flag_cause kcmPod0)).
  exists kcmContainer, controllersArg.
  repeat split; [now left|right; now left].
Defined.

Lemma patchKAS_frame_witness :
  exists c', Containers (Spec (fst (patchKAS kasPod0))) !! 0%nat = Some c'
    /\ Name c' = Name kasContainer /\ Image c' = Image kasContainer
    /\ Args c' = Args kasContainer
    /\ sublist (Command c') (Command kasContainer).
Proof.
  apply (proj2 (proj2 (proj2 (patchKAS_frame kasPod0))) 0%nat kasContainer).
  reflexivity.
Defined.

Lemma patchKCM_frame_witness :
  exists c', Containers (Spec (fst (patchKCM kcmPod0))) !! 0%nat = Some c'
    /\ Name c' = Name kcmContainer /\ Image c' = Image kcmContainer
    /\ Args c' = Args kcmContainer
    /\ length (Command c') = length (Command kcmContainer).
Proof.
  apply (proj2 (proj2 (proj2 (proj2 (patchKCM_frame kcmPod0)))) 0%nat
           kcmContainer).
  reflexivity.
Defined.

Lemma insertNodelifecycle_after_first_eq_witness :
  exists x y,
    controllersArg = x +:+ "=" +:+ y
    /\ strings.Contains x "=" = false
    /\ insertNodelifecycle controllersArg
       = x +:+ "=" +:+ nodelifecycleToken +:+ y
    /\ 1 <= strings.Index controllersArg "=" + 1
       <= Z.of_nat (String.length controllersArg).
Proof. apply (insertNodelifecycle_after_first_eq controllersArg). reflexivity. Defined.

Lemma insertNodelifecycle_keeps_flag_witness :
  strings.Contains (insertNodelifecycle "--v=2 --controllers=*") controllersFlag
  = true
  /\ strings.Contains (insertNodelifecycle "--v=2 --controllers=*")
       nodelifecycleToken = true
  /\ String.length (insertNodelifecycle "--v=2 --controllers=*")
     = (String.length "--v=2 --controllers=*" + 15)%nat.
Proof.
  apply (insertNodelifecycle_keeps_flag "--v=2 --controllers=*"). reflexivity.
Defined.

Lemma applyKAS_settles_witness :
  patchKAS (applyKAS 2 kasPodTwoFlags) = (applyKAS 2 kasPodTwoFlags, false).
Proof.
  apply (applyKAS_settles 2 kasPodTwoFlags); [lia|].
  repeat constructor.
Defined.

Lemma applyKCM_settles_witness :
  patchKCM (applyKCM 2 kcmPodTwoFlags) = (applyKCM 2 kcmPodTwoFlags, false).
Proof.
  apply (applyKCM_settles 2 kcmPodTwoFlags). repeat constructor.
Defined.

Lemma Do_kas_load_error_witness :
  run (Do spr0) fsNoKAS
  = (Err "open /etc/kubernetes/manifests/kube-apiserver.yaml: no such file or directory",
     {| world := fsNoKAS; trace := [EvRead kasPath0] |}).
Proof.
  apply (Do_kas_load_error spr0 {| world := fsNoKAS; trace := [] |}).
  reflexivity.
Defined.

Lemma Do_kcm_load_failure_writes_nothing_witness :
  run (Do spr0) fsNoKCM
  = (Err "open /etc/kubernetes/manifests/kube-controller-manager.yaml: no such file or directory",
     {| world := fsNoKCM; trace := [EvRead kasPath0; EvRead kcmPath0] |})
  /\ run (Do spr0) fsKcmConfigMap
     = (Err "manifest file(/etc/kubernetes/manifests/kube-controller-manager.yaml) is not a static pod",
        {| world := fsKcmConfigMap;
           trace := [EvRead kasPath0; EvRead kcmPath0] |}).
Proof.
  split.
  - refine (proj1 (Do_kcm_load_failure_writes_nothing spr0
                     {| world := fsNoKCM; trace := [] |} kasPod0 _) _ _);
      vm_compute; reflexivity.
  - refine (proj2 (Do_kcm_load_failure_writes_nothing spr0
                     {| world := fsKcmConfigMap; trace := [] |} kasPod0 _)
              "ConfigMap" _);
      vm_compute; reflexivity.
Defined.

Lemma Do_noop_when_patched_witness :
  run (Do spr0) fsBothPatched
  = (Ok tt,
     {| world := fsBothPatched; trace := [EvRead kasPath0; EvRead kcmPath0] |}).
Proof.
  refine (Do_noop_when_patched spr0 {| world := fsBothPatched; trace := [] |}
            (fst (patchKAS kasPod0)) (fst (patchKCM kcmPod0)) _ _ _ _ _).
  - vm_compute; reflexivity.
  - vm_compute; reflexivity.
  - reflexivity.
  - repeat constructor.
  - repeat constructor.
Defined.

Lemma Do_events_witness :
  exists evs,
    trace (snd (run (Do spr0) fsReadOnlyKAS)) = [] ++ evs
    /\ head evs = Some (EvRead kasPath0)
    /\ (length evs <= 4)%nat
    /\ forallb (doEvent spr0) evs = true
    /\ (existsb is_write evs = false ->
        world (snd (run (Do spr0) fsReadOnlyKAS)) = fsReadOnlyKAS).
Proof.
  exact (Do_events spr0 {| world := fsReadOnlyKAS; trace := [] |}).
Defined.

Lemma Do_kcm_write_failure_keeps_kas_witness :
  fst (run (Do spr0) fsReadOnlyKCM)
  = Err "open /etc/kubernetes/manifests/kube-controller-manager.yaml: permission denied"
  /\ ReadObjectFromYamlFile kasPath0 (world (snd (run (Do spr0) fsReadOnlyKCM)))
     = Ok (PodObject (fst (patchKAS kasPod0))).
Proof.
  pose proof (Do_kcm_write_failure_keeps_kas spr0
                {| world := fsReadOnlyKCM; trace := [] |} kasPod0 kcmPod0
                "open /etc/kubernetes/manifests/kube-controller-manager.yaml: permission denied"
                (snd (memWrite (PodObject (fst (patchKAS kasPod0))) kasPath0
                        fsReadOnlyKCM))
                (snd (memWrite (PodObject (fst (patchKAS kasPod0))) kasPath0
                        fsReadOnlyKCM))
                kasPath0_neq_kcmPath0) as Hw.
  destruct Hw as [Hdo Hread]; try (vm_compute; reflexivity).
  split.
  - unfold run. now rewrite Hdo.
  - unfold run. rewrite Hdo. exact Hread.
Defined.

Lemma Do_success_contents_witness :
  let s1 := snd (run (Do spr0) fs0) in
  trace s1
  = [EvRead kasPath0; EvRead kcmPath0;
     EvWrite (PodObject (fst (patchKAS kasPod0))) kasPath0;
     EvWrite (PodObject (fst (patchKCM kcmPod0))) kcmPath0]
  /\ ReadObjectFromYamlFile kasPath0 (world s1)
     = Ok (PodObject (fst (patchKAS kasPod0)))
  /\ ReadObjectFromYamlFile kcmPath0 (world s1)
     = Ok (PodObject (fst (patchKCM kcmPod0))).
Proof.
  intros s1.
  refine (Do_success_contents spr0 {| world := fs0; trace := [] |} s1
            kasPod0 kcmPod0 kasPath0_neq_kcmPath0 _ _ _);
    vm_compute; reflexivity.
Defined.

Lemma NewControlPlaneRunner_kas_missing_witness :
  run (NewControlPlaneRunner {| RunMode := "pod"; PodManifestsPath := manifests |})
      fsNoKAS
  = (Err "/etc/kubernetes/manifests/kube-apiserver.yaml file is not exist",
     {| world := fsNoKAS; trace := [EvFileExists kasPath0] |}).
Proof.
  pose proof (NewControlPlaneRunner_kas_missing
                {| RunMode := "pod"; PodManifestsPath := manifests |}
                {| world := fsNoKAS; trace := [] |} eq_refl eq_refl) as Hk.
  vm_compute in Hk |- *. exact Hk.
Defined.

Lemma NewControlPlaneRunner_success_witness :
  run (NewControlPlaneRunner {| RunMode := "pod"; PodManifestsPath := manifests |})
      fs0
  = (Ok spr0,
     {| world := fs0; trace := [EvFileExists kasPath0; EvFileExists kcmPath0] |}).
Proof.
  pose proof (NewControlPlaneRunner_success
                {| RunMode := "pod"; PodManifestsPath := manifests |}
                {| world := fs0; trace := [] |} eq_refl eq_refl eq_refl) as Hk.
  vm_compute in Hk |- *. exact Hk.
Defined.

Lemma NewControlPlaneRunner_only_probes_witness :
  RunMode {| RunMode := "pod"; PodManifestsPath := manifests |} = "pod".
Proof.
  apply (proj2 (proj2 (NewControlPlaneRunner_only_probes
                         {| RunMode := "pod"; PodManifestsPath := manifests |}
                         {| world := fs0; trace := [] |})) spr0).
  vm_compute; reflexivity.
Defined.

(** X22. The [break] of either loop ends the scan of one container only:
    every container of the pod is patched as if it were alone, with the
    scan of its own command, whatever earlier containers held and whether
    or not the flag was already set. *)
Theorem patch_per_container (p : Pod) (i : nat) (c : Container) (u : bool) :
  Containers (Spec p) !! i = Some c ->
  Containers (Spec (fst (patchKAS p))) !! i
    = Some (set_Command c (fst (removeAddressTypes (Command c) u)))
  /\ Containers (Spec (fst (patchKCM p))) !! i
     = Some (set_Command c (fst (disableNodeLifecycle (Command c) u))).
Proof.
  intros Hi. rewrite patchKAS_Containers, patchKCM_Containers, !lookup_map, Hi.
  rewrite (removeAddressTypes_fst _ u), (disableNodeLifecycle_fst _ u).
  split; reflexivity.
Qed.

Lemma patch_per_container_witness :
  Containers (Spec (fst (patchKAS threeContainerPod))) !! 2%nat
    = Some (set_Command thirdContainer
              ["proxy"; "--controllers=bar"; "--v=2"])
  /\ Containers (Spec (fst (patchKCM threeContainerPod))) !! 2%nat
     = Some (set_Command thirdContainer
               ["proxy"; "--kubelet-preferred-address-types=InternalIP";
                "--controllers=-nodelifecycle,bar"; "--v=2"]).
Proof.
  apply (patch_per_container threeContainerPod 2 thirdContainer true).
  reflexivity.
Defined.
